(** * Puch Adventure Engine: a shallow embedding of [adventure_engine.py]

    The engine keeps one in-memory dictionary, [ADVENTURE_SESSIONS], from a
    user identifier to a session (a story log and an inventory), and exposes
    four tools over it: [start_adventure], [make_choice], [show_status] and
    [reset_adventure].  Two helpers talk to the outside: the narrative
    backend ([get_narrative_update]) and the scene image adapter
    ([get_scene_image]).

    Python values are dynamically typed and the engine never validates what
    [json.loads] hands back, so the embedding keeps the values untyped: a
    JSON value is a [pyval], subscripting and formatting are partial
    operations that raise the exception Python raises, and a tool is a
    computation over the session store that may raise after it has already
    written to the store. *)

From Stdlib Require Import Ascii.
From stdpp Require Import gmap strings list fin_maps pretty.

#[local] Set Warnings "-register-all".
#[local] Open Scope Z_scope.

(** ** Python values *)

(** What the interpreter contributes and the engine only uses: floating-point
    numbers (their truth value and their [repr]) and the [repr] of a [str],
    which depends on the Unicode character database. *)
Class Interpreter := {
  pyfloat : Type;
  float_bool : pyfloat -> bool;
  float_repr : pyfloat -> string;
  str_repr : string -> string
}.

(** Exceptions a tool call can end with.  The first three are raised by the
    engine's own subscripts and by [quote_plus]; [UnicodeEncodeError] by
    encoding a [str] that holds an unpaired surrogate; the other two stand
    for whatever the backend call or [json.loads] raises. *)
Inductive pyexc :=
| KeyError
| IndexError
| TypeError
| UnicodeEncodeError
| JSONDecodeError
| ServiceError (what : string).

Inductive result (A : Type) :=
| Ok (a : A)
| Raise (e : pyexc).
Arguments Ok {A} a.
Arguments Raise {A} e.

Section Values.
Context `{Interpreter}.

(** The values [json.loads] produces.  A [str] is kept as the bytes of its
    UTF-8 encoding, an unpaired surrogate (which [json.loads] makes from an
    escape such as \ud83d on its own) as the three bytes ED A0..BF 80..BF
    that UTF-8 would give it; a [dict] keeps its items in insertion order. *)
Inductive pyval :=
| PNone
| PBool (b : bool)
| PInt (z : Z)
| PFloat (f : pyfloat)
| PStr (s : string)
| PList (l : list pyval)
| PDict (d : list (string * pyval)).

(** [sep.join(parts)] *)
Fixpoint join (sep : string) (parts : list string) : string :=
  match parts with
  | [] => ""
  | [p] => p
  | p :: rest => p +:+ sep +:+ join sep rest
  end.

(** [repr(v)]: lists and dicts print their items' [repr], comma separated. *)
Fixpoint py_repr (v : pyval) : string :=
  match v with
  | PNone => "None"
  | PBool true => "True"
  | PBool false => "False"
  | PInt z => pretty z
  | PFloat f => float_repr f
  | PStr s => str_repr s
  | PList l => "[" +:+ join ", " (map py_repr l) +:+ "]"
  | PDict d =>
      "{" +:+ join ", " (map (fun kv => str_repr kv.1 +:+ ": " +:+ py_repr kv.2) d) +:+ "}"
  end.

(** [str(v)], which is what an f-string field [{v}] renders: a [str] is
    rendered as it is, every other value by its [repr]. *)
Definition py_str (v : pyval) : string :=
  match v with
  | PStr s => s
  | _ => py_repr v
  end.

(** [bool(v)], as tested by [if not inventory]. *)
Definition py_bool (v : pyval) : bool :=
  match v with
  | PNone => false
  | PBool b => b
  | PInt z => negb (z =? 0)
  | PFloat f => float_bool f
  | PStr s => negb (String.eqb s "")
  | PList l => negb (Nat.eqb (length l) 0)
  | PDict d => negb (Nat.eqb (length d) 0)
  end.

(** A byte [10xxxxxx] continues the code point started before it. *)
Definition is_continuation (c : ascii) : bool :=
  let n := Z.of_N (Ascii.N_of_ascii c) in (128 <=? n) && (n <? 192).

(** The code points of a [str], each as a one-character [str]. *)
Fixpoint utf8_chars (s : string) : list string :=
  match s with
  | EmptyString => []
  | String c s' =>
      match s' with
      | String c' _ =>
          if is_continuation c' then
            match utf8_chars s' with
            | h :: t => String c h :: t
            | [] => [String c EmptyString]
            end
          else String c EmptyString :: utf8_chars s'
      | EmptyString => [String c EmptyString]
      end
  end.

(** [l[i]] on a sequence of length [length l]: a negative index counts from
    the end, and an index outside the sequence raises [IndexError]. *)
Definition seq_index {A : Type} (l : list A) (i : Z) : result A :=
  let idx := if i <? 0 then i + Z.of_nat (length l) else i in
  if idx <? 0 then Raise IndexError
  else match l !! Z.to_nat idx with
       | Some x => Ok x
       | None => Raise IndexError
       end.

(** [d[k]] on the items of a dict ([json.loads] keeps one item per key). *)
Fixpoint dict_get (d : list (string * pyval)) (k : string) : option pyval :=
  match d with
  | [] => None
  | (k', v) :: rest => if String.eqb k' k then Some v else dict_get rest k
  end.

(** [v[key]] for a [str] key, as in [narrative_data["image_prompt"]]: a dict
    looks the key up, every other JSON value rejects a [str] subscript. *)
Definition getitem_key (v : pyval) (key : string) : result pyval :=
  match v with
  | PDict d =>
      match dict_get d key with
      | Some x => Ok x
      | None => Raise KeyError
      end
  | _ => Raise TypeError
  end.

(** [v[i]] for an [int] index, as in [narrative_data['choices'][1]].  A list
    and a [str] are indexed; a dict from [json.loads] has [str] keys only, so
    an [int] key is missing; the other values are not subscriptable. *)
Definition getitem_index (v : pyval) (i : Z) : result pyval :=
  match v with
  | PList l => seq_index l i
  | PStr s =>
      match seq_index (utf8_chars s) i with
      | Ok c => Ok (PStr c)
      | Raise e => Raise e
      end
  | PDict _ => Raise KeyError
  | _ => Raise TypeError
  end.

(** [', '.join(v)]: the argument must be iterable, and every item a [str].
    Iterating a [str] gives its characters, iterating a dict its keys. *)
Fixpoint all_str (l : list pyval) : result (list string) :=
  match l with
  | [] => Ok []
  | PStr s :: rest =>
      match all_str rest with
      | Ok ss => Ok (s :: ss)
      | Raise e => Raise e
      end
  | _ :: _ => Raise TypeError
  end.

Definition str_join (sep : string) (v : pyval) : result string :=
  match v with
  | PList l =>
      match all_str l with
      | Ok ss => Ok (join sep ss)
      | Raise e => Raise e
      end
  | PStr s => Ok (join sep (utf8_chars s))
  | PDict d => Ok (join sep (map fst d))
  | _ => Raise TypeError
  end.

End Values.

Arguments pyval {_}.

(** ** The scene image adapter's URL encoding *)

(** [urllib.parse.quote_plus], following CPython's [urllib/parse.py].  A
    [str] is encoded to UTF-8 first, which is the representation used here. *)

Fixpoint char_in (c : ascii) (s : string) : bool :=
  match s with
  | EmptyString => false
  | String c' s' => Ascii.eqb c c' || char_in c s'
  end.

(** [_ALWAYS_SAFE]: the bytes [quote] never escapes. *)
Definition ALWAYS_SAFE : string :=
  "ABCDEFGHIJKLMNOPQRSTUVWXYZabcdefghijklmnopqrstuvwxyz0123456789_.-~".

Definition hex_digit (n : N) : ascii :=
  match String.get (N.to_nat n) "0123456789ABCDEF" with
  | Some c => c
  | None => "0"%char
  end.

(** ['%{:02X}'.format(b)] *)
Definition percent_escape (b : ascii) : string :=
  let n := Ascii.N_of_ascii b in
  String "%" (String (hex_digit (n / 16)) (String (hex_digit (n mod 16)) EmptyString)).

(** [_Quoter.__missing__]: a safe byte stands for itself, any other byte is
    escaped. *)
Definition quoter (safe : string) (b : ascii) : string :=
  if char_in b (ALWAYS_SAFE +:+ safe) then String b EmptyString
  else percent_escape b.

(** [quote_from_bytes(bs, safe)]: [''.join([quoter(char) for char in bs])].
    (CPython returns [bs] as it is when every byte is safe, which is what the
    join gives as well.) *)
Fixpoint quote_from_bytes (bs : string) (safe : string) : string :=
  match bs with
  | EmptyString => ""
  | String b rest => quoter safe b +:+ quote_from_bytes rest safe
  end.

(** [quote(string, safe)] on a [str]. *)
Definition quote (s : string) (safe : string) : string :=
  if String.eqb s "" then s else quote_from_bytes s safe.

(** [string.replace(old, new)] for one-character [old] and [new]. *)
Fixpoint replace_char (old new : ascii) (s : string) : string :=
  match s with
  | EmptyString => ""
  | String c rest =>
      String (if Ascii.eqb c old then new else c) (replace_char old new rest)
  end.

(** [quote_plus(string)] on a [str], with the default [safe='']: without a
    space [quote] already gives the answer; with one, the space is kept safe
    and then replaced by a plus sign. *)
Definition quote_plus_str (s : string) : string :=
  if negb (char_in " " s) then quote s ""
  else replace_char " " "+" (quote s " ").

(** A [str] with an unpaired surrogate in it, which [str.encode] with the
    strict UTF-8 codec refuses.  The byte ED starts the three-byte
    characters U+D000 to U+DFFF, and a second byte from A0 on makes it a
    surrogate. *)
Fixpoint has_surrogate (s : string) : bool :=
  match s with
  | EmptyString => false
  | String a rest =>
      (N.eqb (Ascii.N_of_ascii a) 237 &&
       match rest with
       | String b _ => N.leb 160 (Ascii.N_of_ascii b)
       | EmptyString => false
       end) || has_surrogate rest
  end.

(** [quote_plus(v)]: [quote] encodes a [str] to UTF-8 first, which raises
    [UnicodeEncodeError] on an unpaired surrogate; a value that is neither
    [str] nor [bytes] reaches [quote_from_bytes], which raises [TypeError]. *)
Definition quote_plus `{Interpreter} (v : pyval) : result string :=
  match v with
  | PStr s =>
      if has_surrogate s then Raise UnicodeEncodeError else Ok (quote_plus_str s)
  | _ => Raise TypeError
  end.

(** What the console can print of a value: it encodes to UTF-8, strictly,
    so a [str] with an unpaired surrogate cannot be printed; the [repr] of
    any other value has such a character escaped. *)
Definition encodable `{Interpreter} (v : pyval) : bool :=
  match v with
  | PStr s => negb (has_surrogate s)
  | _ => true
  end.

(** What [quote_plus] amounts to, byte by byte: a space becomes a plus
    sign, an always-safe byte stands for itself, any other byte is escaped. *)
Definition plus_encode_byte (b : ascii) : string :=
  if Ascii.eqb b " " then "+"
  else if char_in b ALWAYS_SAFE then String b EmptyString
  else percent_escape b.

Fixpoint plus_encode (s : string) : string :=
  match s with
  | EmptyString => ""
  | String b rest => plus_encode_byte b +:+ plus_encode rest
  end.

Fixpoint all_chars (p : ascii -> bool) (s : string) : bool :=
  match s with
  | EmptyString => true
  | String c rest => p c && all_chars p rest
  end.

(** The characters an encoded prompt is made of. *)
Definition encoded_char (c : ascii) : bool :=
  char_in c ALWAYS_SAFE || Ascii.eqb c "%" || Ascii.eqb c "+".

(** ** The session store and the tool monad *)

Section Engine.
Context `{Interpreter}.

(** One user's adventure: [{"story_log": [...], "inventory": ...}]. *)
Record session := Session {
  story_log : list pyval;
  inventory : pyval
}.

(** What a call does to the outside: a request to the narrative backend
    (with the log and the player action it was given) or a line printed on
    the console. *)
Inductive event :=
| BackendCall (log : list pyval) (user_choice : string)
| Printed (text : string).

(** The process state: the global dictionary and what has been sent out. *)
Record world := World {
  ADVENTURE_SESSIONS : gmap string session;
  trace : list event
}.

(** A tool body runs on the world and either returns or raises; what it
    wrote before raising stays written. *)
Definition tool (A : Type) : Type := world -> result A * world.

#[export] Instance tool_ret : MRet tool := fun A a w => (Ok a, w).

#[export] Instance tool_bind : MBind tool := fun A B f m w =>
  match m w with
  | (Ok a, w') => f a w'
  | (Raise e, w') => (Raise e, w')
  end.

(** An operation of the language that may raise and touches nothing. *)
Definition lift {A : Type} (r : result A) : tool A := fun w => (r, w).

Definition emit (ev : event) : tool unit :=
  fun w => (Ok tt, World (ADVENTURE_SESSIONS w) (trace w ++ [ev])).

(** [uid in ADVENTURE_SESSIONS], with the session [ADVENTURE_SESSIONS[uid]]
    when it is. *)
Definition find_session (uid : string) : tool (option session) :=
  fun w => (Ok (ADVENTURE_SESSIONS w !! uid), w).

(** [ADVENTURE_SESSIONS[uid] = s] *)
Definition put_session (uid : string) (s : session) : tool unit :=
  fun w => (Ok tt, World (<[uid := s]> (ADVENTURE_SESSIONS w)) (trace w)).

(** [del ADVENTURE_SESSIONS[uid]] *)
Definition del_session (uid : string) : tool unit :=
  fun w => (Ok tt, World (delete uid (ADVENTURE_SESSIONS w)) (trace w)).

(** A write through [current_session], which is the very dictionary stored
    under [uid], not a copy of it. *)
Definition update_session (uid : string) (f : session -> session) : tool unit :=
  fun w => (Ok tt, World (alter f uid (ADVENTURE_SESSIONS w)) (trace w)).

Definition print (text : string) : tool unit := emit (Printed text).

Definition NL : string := String "010"%char EmptyString.

(** ** The helpers *)

(** The narrative backend: what the Gemini call and [json.loads] give back
    for a log and a player action, or the exception they raise.  It is
    outside the engine, so every statement below holds for every backend. *)
Definition backend : Type := list pyval -> string -> result pyval.

(** [get_narrative_update(story_log, user_choice)]: one request to the
    backend; the parsed JSON is returned unvalidated. *)
Definition get_narrative_update (gemini : backend)
    (log : list pyval) (user_choice : string) : tool pyval :=
  emit (BackendCall log user_choice);;
  lift (gemini log user_choice).

Definition IMAGE_URL_PREFIX : string :=
  "https://via.placeholder.com/1024x1024.png?text=".

(** [print(f"...{v}...")]: the line is printed, or the console raises on a
    value it cannot encode. *)
Definition print_field (before : string) (v : pyval) (after : string) : tool unit :=
  if encodable v then print (before +:+ py_str v +:+ after)
  else lift (Raise UnicodeEncodeError).

(** [get_scene_image(prompt)] *)
Definition get_scene_image (prompt : pyval) : tool string :=
  print_field "🎨 Creating placeholder image for prompt: '" prompt "'";;
  formatted_prompt ← lift (quote_plus prompt);
  let image_placeholder_url := IMAGE_URL_PREFIX +:+ formatted_prompt in
  print "✅ Placeholder image URL created.";;
  mret image_placeholder_url.

(** ** The tools *)

Definition ALREADY_PREFIX : string :=
  "You are already in an adventure! Your last update was: ".

Definition initial_prompt : string :=
  "Start a new fantasy adventure for me in a mysterious, ancient forest.".

Definition NO_SESSION_MESSAGE : string :=
  "You haven't started an adventure yet! Use the 'start_adventure' tool first.".

(** [start_adventure(puch_user_id)] *)
Definition start_adventure (gemini : backend) (puch_user_id : string) : tool string :=
  existing ← find_session puch_user_id;
  match existing with
  | Some current =>
      last_log ← lift (seq_index (story_log current) (-1));
      mret (ALREADY_PREFIX +:+ py_str last_log)
  | None =>
      narrative_data ← get_narrative_update gemini [] initial_prompt;
      image_prompt ← lift (getitem_key narrative_data "image_prompt");
      image_url ← get_scene_image image_prompt;
      narrative ← lift (getitem_key narrative_data "narrative");
      new_inventory ← lift (getitem_key narrative_data "new_inventory");
      put_session puch_user_id (Session [narrative] new_inventory);;
      shown ← lift (getitem_key narrative_data "narrative");
      choices ← lift (getitem_key narrative_data "choices");
      choices1 ← lift (getitem_key narrative_data "choices");
      second ← lift (getitem_index choices1 1);
      choices2 ← lift (getitem_key narrative_data "choices");
      third ← lift (getitem_index choices2 2);
      mret ("A new adventure begins!" +:+ NL +:+ NL +:+
            py_str shown +:+ NL +:+ NL +:+
            "Image: " +:+ image_url +:+ NL +:+ NL +:+
            "What do you do?" +:+ NL +:+
            "1. " +:+ py_str choices +:+ NL +:+
            "2. " +:+ py_str second +:+ NL +:+
            "3. " +:+ py_str third +:+ NL +:+
            "4. Or, type your own action...")
  end.

(** [make_choice(puch_user_id, choice)] *)
Definition make_choice (gemini : backend) (puch_user_id choice : string) : tool string :=
  existing ← find_session puch_user_id;
  match existing with
  | None => mret NO_SESSION_MESSAGE
  | Some current_session =>
      narrative_data ← get_narrative_update gemini (story_log current_session) choice;
      image_prompt ← lift (getitem_key narrative_data "image_prompt");
      image_url ← get_scene_image image_prompt;
      update_session puch_user_id (fun s =>
        Session (story_log s ++ [PStr ("Player chose: " +:+ choice)]) (inventory s));;
      narrative ← lift (getitem_key narrative_data "narrative");
      update_session puch_user_id (fun s =>
        Session (story_log s ++ [narrative]) (inventory s));;
      new_inventory ← lift (getitem_key narrative_data "new_inventory");
      update_session puch_user_id (fun s => Session (story_log s) new_inventory);;
      shown ← lift (getitem_key narrative_data "narrative");
      choices ← lift (getitem_key narrative_data "choices");
      choices1 ← lift (getitem_key narrative_data "choices");
      second ← lift (getitem_index choices1 1);
      choices2 ← lift (getitem_key narrative_data "choices");
      third ← lift (getitem_index choices2 2);
      mret (py_str shown +:+ NL +:+ NL +:+
            "Image: " +:+ image_url +:+ NL +:+ NL +:+
            "What do you do?" +:+ NL +:+
            "1. " +:+ py_str choices +:+ NL +:+
            "2. " +:+ py_str second +:+ NL +:+
            "3. " +:+ py_str third +:+ NL +:+
            "4. Or, type your own action...")
  end.

(** [show_status(puch_user_id)] *)
Definition show_status (puch_user_id : string) : tool string :=
  existing ← find_session puch_user_id;
  match existing with
  | None => mret NO_SESSION_MESSAGE
  | Some current =>
      if negb (py_bool (inventory current)) then mret "Your inventory is empty."
      else
        listing ← lift (str_join ", " (inventory current));
        mret ("Your inventory contains: " +:+ listing)
  end.

Definition RESET_MESSAGE : string :=
  "Your adventure has been reset. You can now start a new one by using the 'start_adventure' tool.".

Definition NOTHING_TO_RESET_MESSAGE : string :=
  "You do not have an active adventure to reset.".

(** [reset_adventure(puch_user_id)] *)
Definition reset_adventure (puch_user_id : string) : tool string :=
  existing ← find_session puch_user_id;
  match existing with
  | Some _ => del_session puch_user_id;; mret RESET_MESSAGE
  | None => mret NOTHING_TO_RESET_MESSAGE
  end.

(** ** Calls and reachable states *)

(** One call of the tool surface.  ([validate] returns the configured phone
    number and touches nothing, so it is left out.) *)
Inductive call :=
| Start (puch_user_id : string)
| Choose (puch_user_id choice : string)
| Status (puch_user_id : string)
| Reset (puch_user_id : string).

Definition run (gemini : backend) (c : call) : tool string :=
  match c with
  | Start uid => start_adventure gemini uid
  | Choose uid choice => make_choice gemini uid choice
  | Status uid => show_status uid
  | Reset uid => reset_adventure uid
  end.

(** The server starts with [ADVENTURE_SESSIONS = {}]. *)
Definition initial_world : world := World ∅ [].

(** The worlds the server can be in: any number of calls, one after the
    other, each answered by the backend in any way. *)
Inductive reachable : world -> Prop :=
| reachable_initial : reachable initial_world
| reachable_call (gemini : backend) (c : call) (w : world) :
    reachable w -> reachable (run gemini c w).2.

(** Every stored session has something in its log. *)
Definition logs_seeded (w : world) : Prop :=
  forall uid s, ADVENTURE_SESSIONS w !! uid = Some s -> story_log s <> [].

(** The requests sent to the narrative backend, in order. *)
Definition backend_calls (t : list event) : list (list pyval * string) :=
  omap (fun ev => match ev with
                  | BackendCall log user_choice => Some (log, user_choice)
                  | Printed _ => None
                  end) t.

(** The four fields the engine reads from the parsed backend result, with
    [image_prompt] a [str] that [quote_plus] can encode. *)
Definition has_fields (narrative_data : pyval) (image_prompt : string)
    (narrative new_inventory choices : pyval) : Prop :=
  getitem_key narrative_data "image_prompt" = Ok (PStr image_prompt) /\
  has_surrogate image_prompt = false /\
  getitem_key narrative_data "narrative" = Ok narrative /\
  getitem_key narrative_data "new_inventory" = Ok new_inventory /\
  getitem_key narrative_data "choices" = Ok choices.

(** The call cannot get as far as an image URL: the backend raised, or
    [image_prompt] is missing, or it is not a [str]. *)
Inductive fails_early : result pyval -> pyexc -> Prop :=
| fails_backend e : fails_early (Raise e) e
| fails_image_prompt nd e :
    getitem_key nd "image_prompt" = Raise e -> fails_early (Ok nd) e
| fails_quote nd prompt e :
    getitem_key nd "image_prompt" = Ok prompt ->
    quote_plus prompt = Raise e -> fails_early (Ok nd) e.

End Engine.

Arguments session {_}.
Arguments event {_}.
Arguments world {_}.
Arguments backend {_}.
Arguments call : clear implicits.

(** ** The specification's wording, for comparison *)

(** The initial player action as the specification quotes it. *)
Definition SPEC_INITIAL_ACTION : string :=
  "begin a new adventure in a mysterious forest".

(** Percent-encoding as the specification words it: every byte that is not
    an unreserved character, the space included, becomes [%XX]. *)
Definition spec_percent_encode (prompt : string) : string :=
  quote_from_bytes prompt "".

(** The part of a URL after its first question mark. *)
Fixpoint query_portion (url : string) : string :=
  match url with
  | EmptyString => ""
  | String c rest => if Ascii.eqb c "?" then rest else query_portion rest
  end.

(** ** A concrete interpreter *)

(** [''.join(parts)] *)
Fixpoint concat_str (parts : list string) : string :=
  match parts with
  | [] => ""
  | p :: rest => p +:+ concat_str rest
  end.

Definition lower_hex_digit (n : N) : ascii :=
  match String.get (N.to_nat n) "0123456789abcdef" with
  | Some c => c
  | None => "0"%char
  end.

Definition backslash : ascii := "092"%char.

(** [repr] of a character below 128, after CPython's [unicode_repr]: the
    quote and the backslash are escaped, as are the control characters. *)
Definition repr_char (q : ascii) (c : ascii) : string :=
  let n := Ascii.N_of_ascii c in
  if Ascii.eqb c q || Ascii.eqb c backslash then String backslash (String c EmptyString)
  else if N.eqb n 9 then String backslash "t"
  else if N.eqb n 10 then String backslash "n"
  else if N.eqb n 13 then String backslash "r"
  else if N.ltb n 32 || N.eqb n 127 then
    String backslash (String "x" (String (lower_hex_digit (n / 16))
      (String (lower_hex_digit (n mod 16)) EmptyString)))
  else String c EmptyString.

(** The code points from 128 on that [str.isprintable] rejects, as inclusive
    ranges in increasing order: the unassigned code points, the controls,
    the format characters, the surrogates, the private-use characters and
    the separators other than the space (Unicode 14.0.0, the database of
    CPython 3.11). *)
Definition nonprintable_ranges : list (N * N) := [
  (128, 160); (173, 173); (888, 889); (896, 899); (907, 907); (909, 909);
  (930, 930); (1328, 1328); (1367, 1368); (1419, 1420); (1424, 1424);
  (1480, 1487); (1515, 1518); (1525, 1541); (1564, 1564); (1757, 1757);
  (1806, 1807); (1867, 1868); (1970, 1983); (2043, 2044); (2094, 2095);
  (2111, 2111); (2140, 2141); (2143, 2143); (2155, 2159); (2191, 2199);
  (2274, 2274); (2436, 2436); (2445, 2446); (2449, 2450); (2473, 2473);
  (2481, 2481); (2483, 2485); (2490, 2491); (2501, 2502); (2505, 2506);
  (2511, 2518); (2520, 2523); (2526, 2526); (2532, 2533); (2559, 2560);
  (2564, 2564); (2571, 2574); (2577, 2578); (2601, 2601); (2609, 2609);
  (2612, 2612); (2615, 2615); (2618, 2619); (2621, 2621); (2627, 2630);
  (2633, 2634); (2638, 2640); (2642, 2648); (2653, 2653); (2655, 2661);
  (2679, 2688); (2692, 2692); (2702, 2702); (2706, 2706); (2729, 2729);
  (2737, 2737); (2740, 2740); (2746, 2747); (2758, 2758); (2762, 2762);
  (2766, 2767); (2769, 2783); (2788, 2789); (2802, 2808); (2816, 2816);
  (2820, 2820); (2829, 2830); (2833, 2834); (2857, 2857); (2865, 2865);
  (2868, 2868); (2874, 2875); (2885, 2886); (2889, 2890); (2894, 2900);
  (2904, 2907); (2910, 2910); (2916, 2917); (2936, 2945); (2948, 2948);
  (2955, 2957); (2961, 2961); (2966, 2968); (2971, 2971); (2973, 2973);
  (2976, 2978); (2981, 2983); (2987, 2989); (3002, 3005); (3011, 3013);
  (3017, 3017); (3022, 3023); (3025, 3030); (3032, 3045); (3067, 3071);
  (3085, 3085); (3089, 3089); (3113, 3113); (3130, 3131); (3141, 3141);
  (3145, 3145); (3150, 3156); (3159, 3159); (3163, 3164); (3166, 3167);
  (3172, 3173); (3184, 3190); (3213, 3213); (3217, 3217); (3241, 3241);
  (3252, 3252); (3258, 3259); (3269, 3269); (3273, 3273); (3278, 3284);
  (3287, 3292); (3295, 3295); (3300, 3301); (3312, 3312); (3315, 3327);
  (3341, 3341); (3345, 3345); (3397, 3397); (3401, 3401); (3408, 3411);
  (3428, 3429); (3456, 3456); (3460, 3460); (3479, 3481); (3506, 3506);
  (3516, 3516); (3518, 3519); (3527, 3529); (3531, 3534); (3541, 3541);
  (3543, 3543); (3552, 3557); (3568, 3569); (3573, 3584); (3643, 3646);
  (3676, 3712); (3715, 3715); (3717, 3717); (3723, 3723); (3748, 3748);
  (3750, 3750); (3774, 3775); (3781, 3781); (3783, 3783); (3790, 3791);
  (3802, 3803); (3808, 3839); (3912, 3912); (3949, 3952); (3992, 3992);
  (4029, 4029); (4045, 4045); (4059, 4095); (4294, 4294); (4296, 4300);
  (4302, 4303); (4681, 4681); (4686, 4687); (4695, 4695); (4697, 4697);
  (4702, 4703); (4745, 4745); (4750, 4751); (4785, 4785); (4790, 4791);
  (4799, 4799); (4801, 4801); (4806, 4807); (4823, 4823); (4881, 4881);
  (4886, 4887); (4955, 4956); (4989, 4991); (5018, 5023); (5110, 5111);
  (5118, 5119); (5760, 5760); (5789, 5791); (5881, 5887); (5910, 5918);
  (5943, 5951); (5972, 5983); (5997, 5997); (6001, 6001); (6004, 6015);
  (6110, 6111); (6122, 6127); (6138, 6143); (6158, 6158); (6170, 6175);
  (6265, 6271); (6315, 6319); (6390, 6399); (6431, 6431); (6444, 6447);
  (6460, 6463); (6465, 6467); (6510, 6511); (6517, 6527); (6572, 6575);
  (6602, 6607); (6619, 6621); (6684, 6685); (6751, 6751); (6781, 6782);
  (6794, 6799); (6810, 6815); (6830, 6831); (6863, 6911); (6989, 6991);
  (7039, 7039); (7156, 7163); (7224, 7226); (7242, 7244); (7305, 7311);
  (7355, 7356); (7368, 7375); (7419, 7423); (7958, 7959); (7966, 7967);
  (8006, 8007); (8014, 8015); (8024, 8024); (8026, 8026); (8028, 8028);
  (8030, 8030); (8062, 8063); (8117, 8117); (8133, 8133); (8148, 8149);
  (8156, 8156); (8176, 8177); (8181, 8181); (8191, 8207); (8232, 8239);
  (8287, 8303); (8306, 8307); (8335, 8335); (8349, 8351); (8385, 8399);
  (8433, 8447); (8588, 8591); (9255, 9279); (9291, 9311); (11124, 11125);
  (11158, 11158); (11508, 11512); (11558, 11558); (11560, 11564);
  (11566, 11567); (11624, 11630); (11633, 11646); (11671, 11679);
  (11687, 11687); (11695, 11695); (11703, 11703); (11711, 11711);
  (11719, 11719); (11727, 11727); (11735, 11735); (11743, 11743);
  (11870, 11903); (11930, 11930); (12020, 12031); (12246, 12271);
  (12284, 12288); (12352, 12352); (12439, 12440); (12544, 12548);
  (12592, 12592); (12687, 12687); (12772, 12783); (12831, 12831);
  (42125, 42127); (42183, 42191); (42540, 42559); (42744, 42751);
  (42955, 42959); (42962, 42962); (42964, 42964); (42970, 42993);
  (43053, 43055); (43066, 43071); (43128, 43135); (43206, 43213);
  (43226, 43231); (43348, 43358); (43389, 43391); (43470, 43470);
  (43482, 43485); (43519, 43519); (43575, 43583); (43598, 43599);
  (43610, 43611); (43715, 43738); (43767, 43776); (43783, 43784);
  (43791, 43792); (43799, 43807); (43815, 43815); (43823, 43823);
  (43884, 43887); (44014, 44015); (44026, 44031); (55204, 55215);
  (55239, 55242); (55292, 63743); (64110, 64111); (64218, 64255);
  (64263, 64274); (64280, 64284); (64311, 64311); (64317, 64317);
  (64319, 64319); (64322, 64322); (64325, 64325); (64451, 64466);
  (64912, 64913); (64968, 64974); (64976, 65007); (65050, 65055);
  (65107, 65107); (65127, 65127); (65132, 65135); (65141, 65141);
  (65277, 65280); (65471, 65473); (65480, 65481); (65488, 65489);
  (65496, 65497); (65501, 65503); (65511, 65511); (65519, 65531);
  (65534, 65535); (65548, 65548); (65575, 65575); (65595, 65595);
  (65598, 65598); (65614, 65615); (65630, 65663); (65787, 65791);
  (65795, 65798); (65844, 65846); (65935, 65935); (65949, 65951);
  (65953, 65999); (66046, 66175); (66205, 66207); (66257, 66271);
  (66300, 66303); (66340, 66348); (66379, 66383); (66427, 66431);
  (66462, 66462); (66500, 66503); (66518, 66559); (66718, 66719);
  (66730, 66735); (66772, 66775); (66812, 66815); (66856, 66863);
  (66916, 66926); (66939, 66939); (66955, 66955); (66963, 66963);
  (66966, 66966); (66978, 66978); (66994, 66994); (67002, 67002);
  (67005, 67071); (67383, 67391); (67414, 67423); (67432, 67455);
  (67462, 67462); (67505, 67505); (67515, 67583); (67590, 67591);
  (67593, 67593); (67638, 67638); (67641, 67643); (67645, 67646);
  (67670, 67670); (67743, 67750); (67760, 67807); (67827, 67827);
  (67830, 67834); (67868, 67870); (67898, 67902); (67904, 67967);
  (68024, 68027); (68048, 68049); (68100, 68100); (68103, 68107);
  (68116, 68116); (68120, 68120); (68150, 68151); (68155, 68158);
  (68169, 68175); (68185, 68191); (68256, 68287); (68327, 68330);
  (68343, 68351); (68406, 68408); (68438, 68439); (68467, 68471);
  (68498, 68504); (68509, 68520); (68528, 68607); (68681, 68735);
  (68787, 68799); (68851, 68857); (68904, 68911); (68922, 69215);
  (69247, 69247); (69290, 69290); (69294, 69295); (69298, 69375);
  (69416, 69423); (69466, 69487); (69514, 69551); (69580, 69599);
  (69623, 69631); (69710, 69713); (69750, 69758); (69821, 69821);
  (69827, 69839); (69865, 69871); (69882, 69887); (69941, 69941);
  (69960, 69967); (70007, 70015); (70112, 70112); (70133, 70143);
  (70162, 70162); (70207, 70271); (70279, 70279); (70281, 70281);
  (70286, 70286); (70302, 70302); (70314, 70319); (70379, 70383);
  (70394, 70399); (70404, 70404); (70413, 70414); (70417, 70418);
  (70441, 70441); (70449, 70449); (70452, 70452); (70458, 70458);
  (70469, 70470); (70473, 70474); (70478, 70479); (70481, 70486);
  (70488, 70492); (70500, 70501); (70509, 70511); (70517, 70655);
  (70748, 70748); (70754, 70783); (70856, 70863); (70874, 71039);
  (71094, 71095); (71134, 71167); (71237, 71247); (71258, 71263);
  (71277, 71295); (71354, 71359); (71370, 71423); (71451, 71452);
  (71468, 71471); (71495, 71679); (71740, 71839); (71923, 71934);
  (71943, 71944); (71946, 71947); (71956, 71956); (71959, 71959);
  (71990, 71990); (71993, 71994); (72007, 72015); (72026, 72095);
  (72104, 72105); (72152, 72153); (72165, 72191); (72264, 72271);
  (72355, 72367); (72441, 72703); (72713, 72713); (72759, 72759);
  (72774, 72783); (72813, 72815); (72848, 72849); (72872, 72872);
  (72887, 72959); (72967, 72967); (72970, 72970); (73015, 73017);
  (73019, 73019); (73022, 73022); (73032, 73039); (73050, 73055);
  (73062, 73062); (73065, 73065); (73103, 73103); (73106, 73106);
  (73113, 73119); (73130, 73439); (73465, 73647); (73649, 73663);
  (73714, 73726); (74650, 74751); (74863, 74863); (74869, 74879);
  (75076, 77711); (77811, 77823); (78895, 82943); (83527, 92159);
  (92729, 92735); (92767, 92767); (92778, 92781); (92863, 92863);
  (92874, 92879); (92910, 92911); (92918, 92927); (92998, 93007);
  (93018, 93018); (93026, 93026); (93048, 93052); (93072, 93759);
  (93851, 93951); (94027, 94030); (94088, 94094); (94112, 94175);
  (94181, 94191); (94194, 94207); (100344, 100351); (101590, 101631);
  (101641, 110575); (110580, 110580); (110588, 110588); (110591, 110591);
  (110883, 110927); (110931, 110947); (110952, 110959); (111356, 113663);
  (113771, 113775); (113789, 113791); (113801, 113807); (113818, 113819);
  (113824, 118527); (118574, 118575); (118599, 118607); (118724, 118783);
  (119030, 119039); (119079, 119080); (119155, 119162); (119275, 119295);
  (119366, 119519); (119540, 119551); (119639, 119647); (119673, 119807);
  (119893, 119893); (119965, 119965); (119968, 119969); (119971, 119972);
  (119975, 119976); (119981, 119981); (119994, 119994); (119996, 119996);
  (120004, 120004); (120070, 120070); (120075, 120076); (120085, 120085);
  (120093, 120093); (120122, 120122); (120127, 120127); (120133, 120133);
  (120135, 120137); (120145, 120145); (120486, 120487); (120780, 120781);
  (121484, 121498); (121504, 121504); (121520, 122623); (122655, 122879);
  (122887, 122887); (122905, 122906); (122914, 122914); (122917, 122917);
  (122923, 123135); (123181, 123183); (123198, 123199); (123210, 123213);
  (123216, 123535); (123567, 123583); (123642, 123646); (123648, 124895);
  (124903, 124903); (124908, 124908); (124911, 124911); (124927, 124927);
  (125125, 125126); (125143, 125183); (125260, 125263); (125274, 125277);
  (125280, 126064); (126133, 126208); (126270, 126463); (126468, 126468);
  (126496, 126496); (126499, 126499); (126501, 126502); (126504, 126504);
  (126515, 126515); (126520, 126520); (126522, 126522); (126524, 126529);
  (126531, 126534); (126536, 126536); (126538, 126538); (126540, 126540);
  (126544, 126544); (126547, 126547); (126549, 126550); (126552, 126552);
  (126554, 126554); (126556, 126556); (126558, 126558); (126560, 126560);
  (126563, 126563); (126565, 126566); (126571, 126571); (126579, 126579);
  (126584, 126584); (126589, 126589); (126591, 126591); (126602, 126602);
  (126620, 126624); (126628, 126628); (126634, 126634); (126652, 126703);
  (126706, 126975); (127020, 127023); (127124, 127135); (127151, 127152);
  (127168, 127168); (127184, 127184); (127222, 127231); (127406, 127461);
  (127491, 127503); (127548, 127551); (127561, 127567); (127570, 127583);
  (127590, 127743); (128728, 128732); (128749, 128751); (128765, 128767);
  (128884, 128895); (128985, 128991); (129004, 129007); (129009, 129023);
  (129036, 129039); (129096, 129103); (129114, 129119); (129160, 129167);
  (129198, 129199); (129202, 129279); (129620, 129631); (129646, 129647);
  (129653, 129655); (129661, 129663); (129671, 129679); (129709, 129711);
  (129723, 129727); (129734, 129743); (129754, 129759); (129768, 129775);
  (129783, 129791); (129939, 129939); (129995, 130031); (130042, 131071);
  (173792, 173823); (177977, 177983); (178206, 178207); (183970, 183983);
  (191457, 194559); (195102, 196607); (201547, 917759); (918000, 1114111)
]%N.

Definition is_printable (cp : N) : bool :=
  negb (existsb (fun r => N.leb r.1 cp && N.leb cp r.2) nonprintable_ranges).

(** The six bits a continuation byte carries. *)
Definition payload (c : ascii) : N := (Ascii.N_of_ascii c mod 64)%N.

(** The code point that the bytes of one character stand for; [None] on
    bytes that are the encoding of no code point. *)
Definition utf8_decode (ch : string) : option N :=
  match ch with
  | String a EmptyString =>
      let n := Ascii.N_of_ascii a in
      if N.ltb n 128 then Some n else None
  | String a (String b EmptyString) =>
      let n := Ascii.N_of_ascii a in
      let cp := ((n mod 32) * 64 + payload b)%N in
      if N.leb 192 n && N.ltb n 224 && is_continuation b && N.leb 128 cp
      then Some cp else None
  | String a (String b (String c EmptyString)) =>
      let n := Ascii.N_of_ascii a in
      let cp := (((n mod 16) * 64 + payload b) * 64 + payload c)%N in
      if N.leb 224 n && N.ltb n 240 && is_continuation b && is_continuation c &&
         N.leb 2048 cp
      then Some cp else None
  | String a (String b (String c (String d EmptyString))) =>
      let n := Ascii.N_of_ascii a in
      let cp := ((((n mod 8) * 64 + payload b) * 64 + payload c) * 64 + payload d)%N in
      if N.leb 240 n && N.ltb n 248 && is_continuation b && is_continuation c &&
         is_continuation d && N.leb 65536 cp && N.leb cp 1114111
      then Some cp else None
  | _ => None
  end.

(** [n] in [width] lower-case hexadecimal digits. *)
Fixpoint hex_digits (width : nat) (n : N) : string :=
  match width with
  | O => ""
  | S k => hex_digits k (n / 16) +:+ String (lower_hex_digit (n mod 16)) EmptyString
  end.

(** The escape of a code point that is not printable. *)
Definition escape_point (cp : N) : string :=
  if N.ltb cp 256 then String backslash (String "x" (hex_digits 2 cp))
  else if N.ltb cp 65536 then String backslash (String "u" (hex_digits 4 cp))
  else String backslash (String "U" (hex_digits 8 cp)).

(** [repr] of one character: a printable character from 128 on is copied,
    any other is escaped. *)
Definition repr_point (q : ascii) (ch : string) : string :=
  match ch with
  | String c EmptyString => repr_char q c
  | _ =>
      match utf8_decode ch with
      | Some cp => if is_printable cp then ch else escape_point cp
      | None => ch
      end
  end.

(** [repr] of a [str], after CPython's [unicode_repr]: single quotes unless
    the text has a single quote and no double quote. *)
Definition unicode_repr (s : string) : string :=
  let q := if char_in "'" s && negb (char_in "034" s) then "034"%char else "'"%char in
  String q (concat_str (map (repr_point q) (utf8_chars s))) +:+ String q EmptyString.

(** JSON without numbers that have a fraction or an exponent. *)
Definition no_float_interpreter : Interpreter := {|
  pyfloat := Empty_set;
  float_bool := fun f => match f with end;
  float_repr := fun f => match f with end;
  str_repr := unicode_repr
|}.

(** Backend replies and worlds to run the engine on. *)
Module Demo.
#[local] Existing Instance no_float_interpreter.

Definition forest : pyval := PDict [
  ("narrative", PStr "You enter a forest.");
  ("choices", PList [PStr "Look"; PStr "Run"; PStr "Wait"]);
  ("image_prompt", PStr "dark forest");
  ("new_inventory", PList [PStr "torch"])].

Definition flee : pyval := PDict [
  ("narrative", PStr "You flee safely.");
  ("choices", PList [PStr "Rest"; PStr "Hide"; PStr "Go on"]);
  ("image_prompt", PStr "a dark cave!");
  ("new_inventory", PList [])].

(** A reply that names one choice only. *)
Definition one_choice : pyval := PDict [
  ("narrative", PStr "You enter a forest.");
  ("choices", PList [PStr "Look"]);
  ("image_prompt", PStr "dark forest");
  ("new_inventory", PList [PStr "torch"])].

Definition gemini : backend := fun log _ =>
  match log with
  | [] => Ok forest
  | _ => Ok flee
  end.

Definition terse_gemini : backend := fun _ _ => Ok one_choice.

Definition failing_gemini : backend := fun _ _ => Raise JSONDecodeError.

(** The world after [start_adventure("u1")] on a fresh server, and the
    session it holds. *)
Definition started : world := (start_adventure gemini "u1" initial_world).2.

Definition first_session : session :=
  Session [PStr "You enter a forest."] (PList [PStr "torch"]).

End Demo.

(** ** Replacing, stripping and the reply of the narrative service *)

(** [s[n:]] *)
Fixpoint string_drop (n : nat) (s : string) : string :=
  match n, s with
  | O, _ => s
  | S k, String _ rest => string_drop k rest
  | S _, EmptyString => ""
  end.

(** The scan of [str.replace] for a non-empty [old]: the leftmost occurrence
    is replaced, the scan goes on after it, and occurrences never overlap.
    [skip] counts the characters of a replaced occurrence still to pass. *)
Fixpoint replace_from (skip : nat) (old new s : string) : string :=
  match s with
  | EmptyString => ""
  | String c rest =>
      match skip with
      | S k => replace_from k old new rest
      | O =>
          if String.prefix old s
          then new +:+ replace_from (String.length old - 1) old new rest
          else String c (replace_from 0 old new rest)
      end
  end.

(** [s.replace(old, new)]; an empty [old] matches before every character
    and at the end. *)
Definition py_replace (old new s : string) : string :=
  match old with
  | EmptyString => new +:+ concat_str (map (fun ch => ch +:+ new) (utf8_chars s))
  | String _ _ => replace_from 0 old new s
  end.

Definition bytes (codes : list N) : string :=
  fold_right (fun n s => String (Ascii.ascii_of_N n) s) EmptyString codes.

(** The characters [str.isspace] accepts, each in UTF-8: the ASCII controls
    9 to 13 and 28 to 31, the space, U+0085, U+00A0, U+1680, U+2000 to
    U+200A, U+2028, U+2029, U+202F, U+205F and U+3000. *)
Definition WHITESPACE : list string :=
  map bytes
    [[9]; [10]; [11]; [12]; [13]; [28]; [29]; [30]; [31]; [32];
     [194; 133]; [194; 160]; [225; 154; 128];
     [226; 128; 128]; [226; 128; 129]; [226; 128; 130]; [226; 128; 131];
     [226; 128; 132]; [226; 128; 133]; [226; 128; 134]; [226; 128; 135];
     [226; 128; 136]; [226; 128; 137]; [226; 128; 138];
     [226; 128; 168]; [226; 128; 169]; [226; 128; 175]; [226; 129; 159];
     [227; 128; 128]]%N.

(** [ch.isspace()] for one character. *)
Definition py_isspace (ch : string) : bool :=
  existsb (String.eqb ch) WHITESPACE.

Fixpoint lstrip_chars (chars : list string) : list string :=
  match chars with
  | [] => []
  | ch :: rest => if py_isspace ch then lstrip_chars rest else chars
  end.

Fixpoint rstrip_chars (chars : list string) : list string :=
  match chars with
  | [] => []
  | ch :: rest =>
      match rstrip_chars rest with
      | [] => if py_isspace ch then [] else [ch]
      | kept => ch :: kept
      end
  end.

(** [s.strip()]: the whitespace characters at both ends are dropped. *)
Definition py_strip (s : string) : string :=
  concat_str (rstrip_chars (lstrip_chars (utf8_chars s))).

(** [sub in s] *)
Fixpoint occurs (sub s : string) : bool :=
  String.prefix sub s ||
  match s with
  | EmptyString => false
  | String _ rest => occurs sub rest
  end.

Definition BACKTICK : ascii := "096"%char.

Definition FENCE : string := String BACKTICK (String BACKTICK (String BACKTICK EmptyString)).

(** The clean-up of the service's reply:
    [response.text.replace(FENCE + 'json', '').replace(FENCE, '').strip()]. *)
Definition clean_response (text : string) : string :=
  py_strip (py_replace FENCE "" (py_replace (FENCE +:+ "json") "" text)).

Definition DQ : string := String "034"%char EmptyString.

Section Adapter.
Context `{Interpreter}.

(** The request text of [get_narrative_update]: the f-string with the log
    and the player action filled in. *)
Definition system_prompt (story_log : list pyval) (user_choice : string) : string :=
  join NL [
    EmptyString;
    "    You are an expert Dungeon Master for a text-based adventure game.";
    "    Your role is to create a compelling, engaging, and coherent narrative.";
    EmptyString;
    "    Here is the story so far:";
    "    " +:+ py_str (PList story_log);
    EmptyString;
    "    The player's latest action is: " +:+ DQ +:+ user_choice +:+ DQ;
    EmptyString;
    "    Based on this, you must:";
    "    1.  Generate the next part of the story as a single, descriptive paragraph.";
    "    2.  Provide a list of 3 distinct, actionable choices for the player to make next.";
    "    3.  Provide a short, descriptive prompt (5-10 words) for an image generator.";
    "    4.  Update the player's inventory if they acquired or lost an item.";
    "    5.  Return the response ONLY in a valid JSON format with the following keys:";
    "        " +:+ DQ +:+ "narrative" +:+ DQ +:+ ": " +:+ DQ +:+ "The next part of the story." +:+ DQ +:+ ",";
    "        " +:+ DQ +:+ "choices" +:+ DQ +:+ ": [" +:+ DQ +:+ "Choice 1" +:+ DQ +:+ ", " +:+ DQ +:+ "Choice 2" +:+ DQ +:+ ", " +:+ DQ +:+ "Choice 3" +:+ DQ +:+ "],";
    "        " +:+ DQ +:+ "image_prompt" +:+ DQ +:+ ": " +:+ DQ +:+ "A prompt for an image generator." +:+ DQ +:+ ",";
    "        " +:+ DQ +:+ "new_inventory" +:+ DQ +:+ ": [" +:+ DQ +:+ "item1" +:+ DQ +:+ ", " +:+ DQ +:+ "item2" +:+ DQ +:+ ",...]";
    "    "
  ].

(** The body of [get_narrative_update] between the request and the return:
    [generate] is the Gemini call with [response.text] (it may raise),
    [json_loads] is [json.loads]. *)
Definition narrative_backend (generate : string -> result string)
    (json_loads : string -> result pyval) : backend :=
  fun story_log user_choice =>
    match generate (system_prompt story_log user_choice) with
    | Raise e => Raise e
    | Ok text => json_loads (clean_response text)
    end.

End Adapter.

(** ** Start-up configuration and [validate] *)

(** The three settings read at start-up, each stripped. *)
Record config := Config {
  TOKEN : string;
  MY_NUMBER : string;
  GEMINI_API_KEY : string
}.

(** How the module body ends: the server is configured, or an [assert]
    stops it with its message. *)
Inductive startup :=
| Configured (cfg : config)
| AssertionError (message : string).

(** [os.environ.get(name, '').strip()] *)
Definition setting (environ : gmap string string) (name : string) : string :=
  py_strip (default EmptyString (environ !! name)).

(** Section 1.2 of the module: load the three settings, then assert each in
    turn. *)
Definition load_config (environ : gmap string string) : startup :=
  let token := setting environ "AUTH_TOKEN" in
  let my_number := setting environ "MY_NUMBER" in
  let gemini_api_key := setting environ "GEMINI_API_KEY" in
  if String.eqb token "" then
    AssertionError "CRITICAL ERROR: Please set AUTH_TOKEN in your.env file"
  else if String.eqb my_number "" then
    AssertionError "CRITICAL ERROR: Please set MY_NUMBER in your.env file"
  else if String.eqb gemini_api_key "" then
    AssertionError "CRITICAL ERROR: Please set GEMINI_API_KEY in your.env file"
  else Configured (Config token my_number gemini_api_key).

(** [validate()] *)
Definition validate (cfg : config) : string := MY_NUMBER cfg.

(** A text made of whitespace characters only (the empty text included). *)
Definition blank (s : string) : bool := forallb py_isspace (utf8_chars s).

(** The user a call is made for. *)
Definition call_user (c : call) : string :=
  match c with
  | Start uid => uid
  | Choose uid _ => uid
  | Status uid => uid
  | Reset uid => uid
  end.

(** A JSON value that is not a [str]. *)
Definition not_str `{Interpreter} (v : pyval) : bool :=
  match v with
  | PStr _ => false
  | _ => true
  end.

(** The world after some calls made one after the other, each answered by
    its own backend. *)
Fixpoint run_calls `{Interpreter} (calls : list (backend * call)) (w : world) : world :=
  match calls with
  | [] => w
  | (gemini, c) :: rest => run_calls rest (run gemini c w).2
  end.

(** A call that is [show_status], or is made for a user other than [uid]. *)
Definition quiet (uid : string) (c : call) : bool :=
  match c with
  | Status _ => true
  | _ => negb (String.eqb (call_user c) uid)
  end.

(** Reading an encoded prompt back, byte by byte: a plus sign is a space
    and an escape is the byte it names.  It is the inverse the URL service
    applies, used here to show that the encoding loses nothing. *)
Definition hex_value (c : ascii) : option N :=
  let n := Ascii.N_of_ascii c in
  if (48 <=? n)%N && (n <=? 57)%N then Some (n - 48)%N
  else if (65 <=? n)%N && (n <=? 70)%N then Some (n - 55)%N
  else if (97 <=? n)%N && (n <=? 102)%N then Some (n - 87)%N
  else None.

Fixpoint plus_decode (s : string) : string :=
  match s with
  | EmptyString => ""
  | String c rest =>
      if Ascii.eqb c "+" then String " " (plus_decode rest)
      else if Ascii.eqb c "%" then
        match rest with
        | String h1 (String h2 rest') =>
            match hex_value h1, hex_value h2 with
            | Some hi, Some lo =>
                String (Ascii.ascii_of_N (16 * hi + lo)) (plus_decode rest')
            | _, _ => String c (plus_decode rest)
            end
        | _ => String c (plus_decode rest)
        end
      else String c (plus_decode rest)
  end.

(** A character [quote] never escapes. *)
Definition always_safe (c : ascii) : bool := char_in c ALWAYS_SAFE.

(** The shape of one character of [utf8_chars]: a byte followed by
    continuation bytes only, and, for every character but the first of a
    text, a first byte that is not a continuation byte. *)
Definition chunk_ok (ch : string) : bool :=
  match ch with
  | EmptyString => false
  | String _ t => all_chars is_continuation t
  end.

Definition starts_char (ch : string) : bool :=
  match ch with
  | EmptyString => false
  | String c _ => negb (is_continuation c)
  end.

(** A setting that is present in the environment with something other than
    whitespace in it. *)
Definition is_set (environ : gmap string string) (name : string) : Prop :=
  exists value, environ !! name = Some value /\ blank value = false.

(** More replies, an environment and a service to run the engine on. *)
Module Replies.
#[local] Existing Instance no_float_interpreter.

(** A reply whose inventory holds a number. *)
Definition counted : pyval := PDict [
  ("narrative", PStr "You enter a forest.");
  ("choices", PList [PStr "Look"; PStr "Run"; PStr "Wait"]);
  ("image_prompt", PStr "dark forest");
  ("new_inventory", PList [PStr "torch"; PInt 3])].

(** A reply without [narrative]. *)
Definition no_narrative : pyval := PDict [
  ("choices", PList [PStr "Look"; PStr "Run"; PStr "Wait"]);
  ("image_prompt", PStr "dark forest");
  ("new_inventory", PList [PStr "torch"])].

(** A reply without [new_inventory]. *)
Definition no_inventory : pyval := PDict [
  ("narrative", PStr "You flee safely.");
  ("choices", PList [PStr "Look"; PStr "Run"; PStr "Wait"]);
  ("image_prompt", PStr "dark forest")].

(** Replies that name a single choice and fall short elsewhere as well:
    without [narrative], without [new_inventory], without [image_prompt],
    with a number for [image_prompt], with the unpaired surrogate that
    [json.loads] makes of the escape \ud83d for [image_prompt], and with a
    dict for [choices]. *)
Definition short_untold : pyval := PDict [
  ("choices", PList [PStr "Look"]);
  ("image_prompt", PStr "dark forest");
  ("new_inventory", PList [PStr "torch"])].

Definition short_unstocked : pyval := PDict [
  ("narrative", PStr "You enter a forest.");
  ("choices", PList [PStr "Look"]);
  ("image_prompt", PStr "dark forest")].

Definition short_unpainted : pyval := PDict [
  ("narrative", PStr "You enter a forest.");
  ("choices", PList [PStr "Look"]);
  ("new_inventory", PList [PStr "torch"])].

Definition short_numbered : pyval := PDict [
  ("narrative", PStr "You enter a forest.");
  ("choices", PList [PStr "Look"]);
  ("image_prompt", PInt 42);
  ("new_inventory", PList [PStr "torch"])].

Definition lone_surrogate : string :=
  String (Ascii.ascii_of_N 237) (String (Ascii.ascii_of_N 160)
    (String (Ascii.ascii_of_N 189) EmptyString)).

Definition short_surrogate : pyval := PDict [
  ("narrative", PStr "You enter a forest.");
  ("choices", PList [PStr "Look"]);
  ("image_prompt", PStr lone_surrogate);
  ("new_inventory", PList [PStr "torch"])].

Definition short_keyed : pyval := PDict [
  ("narrative", PStr "You enter a forest.");
  ("choices", PDict [("first", PStr "Look")]);
  ("image_prompt", PStr "dark forest");
  ("new_inventory", PList [PStr "torch"])].

Definition answering (nd : pyval) : backend := fun _ _ => Ok nd.

Definition counting_gemini : backend := fun _ _ => Ok counted.
Definition untold_gemini : backend := fun _ _ => Ok no_narrative.
Definition unstocked_gemini : backend := fun _ _ => Ok no_inventory.

Definition environ : gmap string string :=
  <["AUTH_TOKEN" := "secret"]>
    (<["MY_NUMBER" := " 919876543210 " +:+ NL]>
       (<["GEMINI_API_KEY" := "key"]> ∅)).

(** A service that wraps its JSON in a fence, and a parser that knows the
    empty object only. *)
Definition fenced_service : string -> result string :=
  fun _ => Ok (EmptyString +:+ (FENCE +:+ "json") +:+ (NL +:+ "{}" +:+ NL) +:+ FENCE +:+ NL).

Definition tiny_json_loads : string -> result pyval :=
  fun text => if String.eqb text "{}" then Ok (PDict []) else Raise JSONDecodeError.

End Replies.

(** ** Proof support *)

Ltac unfold_tool :=
  unfold run, start_adventure, make_choice, show_status, reset_adventure,
    get_narrative_update, get_scene_image, print_field, print, emit, lift, find_session,
    put_session, del_session, update_session, mbind, mret, tool_bind, tool_ret.

(** A lookup at another key, through the writes of a call. *)
Ltac frame_leaf :=
  cbn;
  repeat first
    [ reflexivity
    | rewrite lookup_insert_ne by assumption
    | rewrite lookup_alter_ne by assumption
    | rewrite lookup_delete_ne by assumption ].

(** Case analysis on the next operation that may raise. *)
Ltac step :=
  match goal with
  | |- context [match ?r with Ok _ => _ | Raise _ => _ end] =>
      let E := fresh "E" in destruct r eqn:E; cbn [fst snd] in *
  | |- context [if encodable ?v then _ else _] =>
      let E := fresh "E" in destruct (encodable v) eqn:E; cbn [fst snd] in *
  end.

(** *** The URL encoding, byte by byte *)

Ltac each_byte b :=
  destruct b as [[] [] [] [] [] [] [] []]; vm_compute; try reflexivity; try discriminate.

Lemma quoter_plain b :
  Ascii.eqb b " " = false -> quoter "" b = plus_encode_byte b.
Proof. each_byte b. Qed.

Lemma quoter_space b :
  replace_char " " "+" (quoter " " b) = plus_encode_byte b.
Proof. each_byte b. Qed.

Lemma plus_encode_byte_chars b :
  all_chars encoded_char (plus_encode_byte b) = true.
Proof. each_byte b. Qed.

Lemma append_cons c a b : String c a +:+ b = String c (a +:+ b).
Proof. reflexivity. Qed.

Lemma replace_char_app old new a b :
  replace_char old new (a +:+ b) = replace_char old new a +:+ replace_char old new b.
Proof.
  induction a as [|c a IH]; [reflexivity|].
  rewrite append_cons. cbn [replace_char]. rewrite append_cons, IH. reflexivity.
Qed.

Lemma all_chars_app p a b :
  all_chars p (a +:+ b) = all_chars p a && all_chars p b.
Proof.
  induction a as [|c a IH]; [reflexivity|].
  rewrite append_cons. cbn [all_chars]. rewrite IH. apply andb_assoc.
Qed.

Lemma string_length_app a b :
  String.length (a +:+ b) = (String.length a + String.length b)%nat.
Proof.
  induction a as [|c a IH]; [reflexivity|].
  rewrite append_cons. cbn [String.length]. rewrite IH. reflexivity.
Qed.

Lemma quote_from_bytes_plain s :
  char_in " " s = false -> quote_from_bytes s "" = plus_encode s.
Proof.
  induction s as [|b s IH]; cbn [quote_from_bytes plus_encode char_in]; [reflexivity|].
  intros Hsp. apply orb_false_iff in Hsp as [Hb Hs].
  rewrite Ascii.eqb_sym in Hb.
  rewrite (quoter_plain b Hb), (IH Hs). reflexivity.
Qed.

Lemma quote_from_bytes_space s :
  replace_char " " "+" (quote_from_bytes s " ") = plus_encode s.
Proof.
  induction s as [|b s IH]; cbn [quote_from_bytes plus_encode]; [reflexivity|].
  rewrite replace_char_app, quoter_space, IH. reflexivity.
Qed.

(** [quote_plus] on a [str] is the byte-by-byte encoding. *)
Lemma quote_plus_str_bytes s : quote_plus_str s = plus_encode s.
Proof.
  unfold quote_plus_str, quote. destruct (char_in " " s) eqn:Hsp; cbn.
  - destruct s as [|b s]; [discriminate|]. cbn [String.eqb].
    apply quote_from_bytes_space.
  - destruct s as [|b s]; [reflexivity|]. cbn [String.eqb].
    apply quote_from_bytes_plain. exact Hsp.
Qed.

Lemma plus_encode_chars s : all_chars encoded_char (plus_encode s) = true.
Proof.
  induction s as [|b s IH]; cbn [plus_encode]; [reflexivity|].
  rewrite all_chars_app, plus_encode_byte_chars, IH. reflexivity.
Qed.

Lemma all_chars_absent p s c :
  all_chars p s = true -> p c = false -> char_in c s = false.
Proof.
  intros Hs Hc. induction s as [|c' s IH]; cbn [all_chars char_in] in *; [reflexivity|].
  apply andb_true_iff in Hs as [Hc' Hs]. rewrite (IH Hs), orb_false_r.
  destruct (Ascii.eqb_spec c c') as [->|]; [congruence | reflexivity].
Qed.

Lemma char_in_app c a b : char_in c (a +:+ b) = char_in c a || char_in c b.
Proof.
  induction a as [|c' a IH]; [reflexivity|].
  rewrite append_cons. cbn [char_in]. rewrite IH. apply orb_assoc.
Qed.

(** An encoded prompt holds no character that is not an [encoded_char]. *)
Lemma plus_encode_lacks text c :
  encoded_char c = false -> char_in c (plus_encode text) = false.
Proof. apply all_chars_absent, plus_encode_chars. Qed.

(** *** The characters of a text and the length of a [repr] *)

Lemma utf8_chars_step c c' s :
  utf8_chars (String c (String c' s)) =
    if is_continuation c' then
      match utf8_chars (String c' s) with
      | h :: t => String c h :: t
      | [] => [String c EmptyString]
      end
    else String c EmptyString :: utf8_chars (String c' s).
Proof. reflexivity. Qed.

Lemma utf8_chars_cons c s :
  exists h t, utf8_chars (String c s) = String c h :: t.
Proof.
  destruct s as [|c' s]; [exists EmptyString, []; reflexivity|].
  rewrite utf8_chars_step. destruct (is_continuation c').
  - destruct (utf8_chars (String c' s)) as [|h t]; eauto.
  - eauto.
Qed.

Lemma utf8_chars_concat s : concat_str (utf8_chars s) = s.
Proof.
  induction s as [|c s IH]; [reflexivity|].
  destruct s as [|c' s]; [reflexivity|].
  rewrite utf8_chars_step. destruct (is_continuation c').
  - destruct (utf8_chars (String c' s)) as [|h t]; [discriminate|].
    cbn [concat_str] in *. rewrite append_cons, IH. reflexivity.
  - cbn [concat_str]. rewrite IH. reflexivity.
Qed.

Lemma repr_char_length q c : (1 <= String.length (repr_char q c))%nat.
Proof. unfold repr_char. repeat case_match; cbn; lia. Qed.

Lemma hex_digits_length width n : String.length (hex_digits width n) = width.
Proof.
  revert n. induction width as [|k IH]; intros n; [reflexivity|].
  cbn [hex_digits]. rewrite string_length_app, IH. cbn. lia.
Qed.

Lemma escape_point_length cp : (4 <= String.length (escape_point cp))%nat.
Proof.
  unfold escape_point. repeat case_match; cbn [String.length];
    rewrite hex_digits_length; lia.
Qed.

Lemma utf8_decode_length ch cp :
  utf8_decode ch = Some cp -> (String.length ch <= 4)%nat.
Proof.
  destruct ch as [|a [|b [|c [|d [|e ch]]]]]; cbn [String.length]; try lia.
  discriminate.
Qed.

Lemma repr_point_length q ch :
  (String.length ch <= String.length (repr_point q ch))%nat.
Proof.
  unfold repr_point. destruct ch as [|c rest]; [cbn; lia|].
  destruct rest as [|c' rest]; [apply repr_char_length|].
  destruct (utf8_decode (String c (String c' rest))) as [cp|] eqn:Hcp; [|lia].
  destruct (is_printable cp); [lia|].
  pose proof (utf8_decode_length _ _ Hcp). pose proof (escape_point_length cp). lia.
Qed.

Lemma repr_points_length q chars :
  (String.length (concat_str chars) <=
   String.length (concat_str (map (repr_point q) chars)))%nat.
Proof.
  induction chars as [|ch chars IH]; [reflexivity|].
  cbn [map concat_str]. rewrite !string_length_app.
  pose proof (repr_point_length q ch). lia.
Qed.

Lemma unicode_repr_length s :
  (String.length s <= String.length (unicode_repr s))%nat.
Proof.
  unfold unicode_repr. cbn zeta.
  set (q := if char_in "'" s && negb (char_in "034" s) then "034"%char else "'"%char).
  rewrite string_length_app. cbn [String.length].
  pose proof (repr_points_length q (utf8_chars s)) as Hlen.
  rewrite utf8_chars_concat in Hlen. lia.
Qed.

#[local] Arguments getitem_index : simpl never.
#[local] Arguments getitem_key : simpl never.
#[local] Arguments py_str : simpl never.
#[local] Arguments String.append : simpl never.

Section Properties.
Context `{Interpreter}.
Implicit Types (w : world) (gemini : backend) (uid choice : string).
Implicit Types (nd narrative inv : pyval) (s : session).

Lemma make_choice_no_session gemini uid choice w :
  ADVENTURE_SESSIONS w !! uid = None ->
  make_choice gemini uid choice w = (Ok NO_SESSION_MESSAGE, w).
Proof. intros Hw. unfold_tool. cbn. rewrite Hw. reflexivity. Qed.

Lemma show_status_no_session uid w :
  ADVENTURE_SESSIONS w !! uid = None ->
  show_status uid w = (Ok NO_SESSION_MESSAGE, w).
Proof. intros Hw. unfold_tool. cbn. rewrite Hw. reflexivity. Qed.

(** *** Subscripts on a list of choices *)

Lemma getitem_index_short (cs : list pyval) :
  (length cs < 3)%nat ->
  (exists e1, getitem_index (PList cs) 1 = Raise e1 /\ e1 = IndexError) \/
  (exists c1, getitem_index (PList cs) 1 = Ok c1 /\
              getitem_index (PList cs) 2 = Raise IndexError).
Proof.
  intros Hlen.
  destruct cs as [|c0 [|c1 [|c2 rest]]]; cbn in Hlen; try lia.
  - left. eexists. split; reflexivity.
  - left. eexists. split; reflexivity.
  - right. eexists. split; reflexivity.
Qed.

Lemma getitem_index_1 (cs : list pyval) c1 :
  cs !! 1%nat = Some c1 -> getitem_index (PList cs) 1 = Ok c1.
Proof.
  intros Hc. destruct cs as [|c0 [|c1' rest]]; try discriminate.
  injection Hc as ->. reflexivity.
Qed.

Lemma getitem_index_2 (cs : list pyval) c2 :
  cs !! 2%nat = Some c2 -> getitem_index (PList cs) 2 = Ok c2.
Proof.
  intros Hc. destruct cs as [|c0 [|c1 [|c2' rest]]]; try discriminate.
  injection Hc as ->. reflexivity.
Qed.

(** *** [start_adventure] for a user without a session *)

Lemma start_adventure_early gemini uid w e :
  ADVENTURE_SESSIONS w !! uid = None ->
  fails_early (gemini [] initial_prompt) e ->
  (start_adventure gemini uid w).1 = Raise e /\
  ADVENTURE_SESSIONS (start_adventure gemini uid w).2 = ADVENTURE_SESSIONS w.
Proof.
  intros Hw Hfail. unfold_tool. cbn. rewrite Hw.
  inversion Hfail as [e' Hg | nd e' Hip Hg | nd prompt e' Hip Hq Hg]; subst; cbn.
  - split; reflexivity.
  - rewrite Hip. split; reflexivity.
  - rewrite Hip. cbn.
    destruct prompt as [| | | |txt| |]; cbn in Hq |- *;
      try (destruct (has_surrogate txt)); try discriminate;
      injection Hq as <-; split; reflexivity.
Qed.

Lemma start_adventure_written gemini uid w nd ip narrative inv :
  ADVENTURE_SESSIONS w !! uid = None ->
  gemini [] initial_prompt = Ok nd ->
  getitem_key nd "image_prompt" = Ok (PStr ip) ->
  has_surrogate ip = false ->
  getitem_key nd "narrative" = Ok narrative ->
  getitem_key nd "new_inventory" = Ok inv ->
  ADVENTURE_SESSIONS (start_adventure gemini uid w).2 =
    <[uid := Session [narrative] inv]> (ADVENTURE_SESSIONS w).
Proof.
  intros Hw Hg Hip Henc Hn Hinv. unfold_tool. cbn. rewrite Hw, Hg. cbn.
  rewrite Hip. cbn. rewrite Henc. cbn. rewrite Hn, Hinv. cbn.
  repeat step; reflexivity.
Qed.

Lemma start_adventure_short gemini uid w nd ip narrative inv cs :
  ADVENTURE_SESSIONS w !! uid = None ->
  gemini [] initial_prompt = Ok nd ->
  has_fields nd ip narrative inv (PList cs) ->
  (length cs < 3)%nat ->
  (start_adventure gemini uid w).1 = Raise IndexError.
Proof.
  intros Hw Hg (Hip & Henc & Hn & Hinv & Hcs) Hlen. unfold_tool. cbn. rewrite Hw, Hg. cbn.
  rewrite Hip. cbn. rewrite Henc. cbn. rewrite Hn, Hinv. cbn. rewrite Hcs. cbn.
  destruct (getitem_index_short cs Hlen) as [(e1 & -> & ->) | (c1 & -> & ->)];
    reflexivity.
Qed.

Lemma start_adventure_full gemini uid w nd ip narrative inv cs c1 c2 :
  ADVENTURE_SESSIONS w !! uid = None ->
  gemini [] initial_prompt = Ok nd ->
  has_fields nd ip narrative inv (PList cs) ->
  cs !! 1%nat = Some c1 ->
  cs !! 2%nat = Some c2 ->
  (start_adventure gemini uid w).1 =
    Ok ("A new adventure begins!" +:+ NL +:+ NL +:+
        py_str narrative +:+ NL +:+ NL +:+
        "Image: " +:+ (IMAGE_URL_PREFIX +:+ quote_plus_str ip) +:+ NL +:+ NL +:+
        "What do you do?" +:+ NL +:+
        "1. " +:+ py_str (PList cs) +:+ NL +:+
        "2. " +:+ py_str c1 +:+ NL +:+
        "3. " +:+ py_str c2 +:+ NL +:+
        "4. Or, type your own action...").
Proof.
  intros Hw Hg (Hip & Henc & Hn & Hinv & Hcs) H1 H2. unfold_tool. cbn. rewrite Hw, Hg. cbn.
  rewrite Hip. cbn. rewrite Henc. cbn. rewrite Hn, Hinv. cbn. rewrite Hcs. cbn.
  rewrite (getitem_index_1 _ _ H1), (getitem_index_2 _ _ H2). reflexivity.
Qed.

Lemma start_adventure_returns gemini uid w resp w' :
  ADVENTURE_SESSIONS w !! uid = None ->
  start_adventure gemini uid w = (Ok resp, w') ->
  exists nd ip narrative inv choices,
    gemini [] initial_prompt = Ok nd /\ has_fields nd ip narrative inv choices.
Proof.
  intros Hw. unfold_tool. cbn. rewrite Hw.
  destruct (gemini [] initial_prompt) as [nd|] eqn:Hg; cbn; [|discriminate].
  destruct (getitem_key nd "image_prompt") as [prompt|] eqn:Hip; cbn; [|discriminate].
  destruct prompt as [| | | |ip| |]; cbn; try discriminate.
  destruct (has_surrogate ip) eqn:Henc; cbn; [discriminate|].
  destruct (getitem_key nd "narrative") as [narrative|] eqn:Hn; cbn; [|discriminate].
  destruct (getitem_key nd "new_inventory") as [inv|] eqn:Hinv; cbn; [|discriminate].
  destruct (getitem_key nd "choices") as [choices|] eqn:Hcs; cbn; [|discriminate].
  intros _. exists nd, ip, narrative, inv, choices. repeat split; assumption.
Qed.

(** Whatever the outcome, one request went to the backend. *)
Lemma start_adventure_calls gemini uid w :
  ADVENTURE_SESSIONS w !! uid = None ->
  backend_calls (trace (start_adventure gemini uid w).2) =
    backend_calls (trace w) ++ [([], initial_prompt)].
Proof.
  intros Hw. unfold_tool. cbn. rewrite Hw.
  repeat step; cbn; unfold backend_calls; rewrite ?omap_app; cbn;
    rewrite ?app_nil_r; reflexivity.
Qed.

(** *** [make_choice] for a user with a session *)

(** A write through the alias is a write to the stored session. *)
Lemma alter_existing (m : gmap string session) uid s (f : session -> session) :
  m !! uid = Some s -> alter f uid m = <[uid := f s]> m.
Proof.
  intros Hm. apply map_eq. intros j. destruct (decide (uid = j)) as [<-|Hne].
  - rewrite lookup_alter_eq, lookup_insert_eq, Hm. reflexivity.
  - rewrite lookup_alter_ne, lookup_insert_ne by assumption. reflexivity.
Qed.

Lemma make_choice_early gemini uid choice w s e :
  ADVENTURE_SESSIONS w !! uid = Some s ->
  fails_early (gemini (story_log s) choice) e ->
  (make_choice gemini uid choice w).1 = Raise e /\
  ADVENTURE_SESSIONS (make_choice gemini uid choice w).2 = ADVENTURE_SESSIONS w.
Proof.
  intros Hw Hfail. unfold_tool. cbn. rewrite Hw.
  inversion Hfail as [e' Hg | nd e' Hip Hg | nd prompt e' Hip Hq Hg]; subst; cbn.
  - split; reflexivity.
  - rewrite Hip. split; reflexivity.
  - rewrite Hip. cbn.
    destruct prompt as [| | | |txt| |]; cbn in Hq |- *;
      try (destruct (has_surrogate txt)); try discriminate;
      injection Hq as <-; split; reflexivity.
Qed.

Lemma make_choice_written gemini uid choice w s nd ip narrative inv :
  ADVENTURE_SESSIONS w !! uid = Some s ->
  gemini (story_log s) choice = Ok nd ->
  getitem_key nd "image_prompt" = Ok (PStr ip) ->
  has_surrogate ip = false ->
  getitem_key nd "narrative" = Ok narrative ->
  getitem_key nd "new_inventory" = Ok inv ->
  ADVENTURE_SESSIONS (make_choice gemini uid choice w).2 =
    <[uid := Session (story_log s ++ [PStr ("Player chose: " +:+ choice); narrative]) inv]>
      (ADVENTURE_SESSIONS w).
Proof.
  intros Hw Hg Hip Henc Hn Hinv. unfold_tool. cbn. rewrite Hw. cbn. rewrite Hg. cbn.
  rewrite Hip. cbn. rewrite Henc. cbn. rewrite Hn. cbn. rewrite Hinv. cbn.
  repeat step; cbn;
    rewrite !alter_alter_eq, (alter_existing _ _ _ _ Hw); cbn;
    rewrite <- app_assoc; reflexivity.
Qed.

Lemma make_choice_short gemini uid choice w s nd ip narrative inv cs :
  ADVENTURE_SESSIONS w !! uid = Some s ->
  gemini (story_log s) choice = Ok nd ->
  has_fields nd ip narrative inv (PList cs) ->
  (length cs < 3)%nat ->
  (make_choice gemini uid choice w).1 = Raise IndexError.
Proof.
  intros Hw Hg (Hip & Henc & Hn & Hinv & Hcs) Hlen. unfold_tool. cbn. rewrite Hw. cbn.
  rewrite Hg. cbn. rewrite Hip. cbn. rewrite Henc. cbn. rewrite Hn. cbn. rewrite Hinv. cbn.
  rewrite Hcs. cbn.
  destruct (getitem_index_short cs Hlen) as [(e1 & -> & ->) | (c1 & -> & ->)];
    reflexivity.
Qed.

Lemma make_choice_full gemini uid choice w s nd ip narrative inv cs c1 c2 :
  ADVENTURE_SESSIONS w !! uid = Some s ->
  gemini (story_log s) choice = Ok nd ->
  has_fields nd ip narrative inv (PList cs) ->
  cs !! 1%nat = Some c1 ->
  cs !! 2%nat = Some c2 ->
  (make_choice gemini uid choice w).1 =
    Ok (py_str narrative +:+ NL +:+ NL +:+
        "Image: " +:+ (IMAGE_URL_PREFIX +:+ quote_plus_str ip) +:+ NL +:+ NL +:+
        "What do you do?" +:+ NL +:+
        "1. " +:+ py_str (PList cs) +:+ NL +:+
        "2. " +:+ py_str c1 +:+ NL +:+
        "3. " +:+ py_str c2 +:+ NL +:+
        "4. Or, type your own action...").
Proof.
  intros Hw Hg (Hip & Henc & Hn & Hinv & Hcs) H1 H2. unfold_tool. cbn. rewrite Hw. cbn.
  rewrite Hg. cbn. rewrite Hip. cbn. rewrite Henc. cbn. rewrite Hn. cbn. rewrite Hinv. cbn.
  rewrite Hcs. cbn.
  rewrite (getitem_index_1 _ _ H1), (getitem_index_2 _ _ H2). reflexivity.
Qed.

Lemma make_choice_returns gemini uid choice w s resp w' :
  ADVENTURE_SESSIONS w !! uid = Some s ->
  make_choice gemini uid choice w = (Ok resp, w') ->
  exists nd ip narrative inv choices,
    gemini (story_log s) choice = Ok nd /\ has_fields nd ip narrative inv choices.
Proof.
  intros Hw. unfold_tool. cbn. rewrite Hw. cbn.
  destruct (gemini (story_log s) choice) as [nd|] eqn:Hg; cbn; [|discriminate].
  destruct (getitem_key nd "image_prompt") as [prompt|] eqn:Hip; cbn; [|discriminate].
  destruct prompt as [| | | |ip| |]; cbn; try discriminate.
  destruct (has_surrogate ip) eqn:Henc; cbn; [discriminate|].
  destruct (getitem_key nd "narrative") as [narrative|] eqn:Hn; cbn; [|discriminate].
  destruct (getitem_key nd "new_inventory") as [inv|] eqn:Hinv; cbn; [|discriminate].
  destruct (getitem_key nd "choices") as [choices|] eqn:Hcs; cbn; [|discriminate].
  intros _. exists nd, ip, narrative, inv, choices. repeat split; assumption.
Qed.

(** *** [start_adventure] for a user with a session, and the log invariant *)

Lemma seq_index_last {A : Type} (l : list A) :
  l <> [] -> exists x, last l = Some x /\ seq_index l (-1) = Ok x.
Proof.
  intros Hl. destruct (last l) as [x|] eqn:Hlast.
  - exists x. split; [reflexivity|]. unfold seq_index.
    assert (0 < length l)%nat by (destruct l; [congruence | cbn; lia]).
    replace (-1 <? 0) with true by reflexivity.
    destruct (-1 + Z.of_nat (length l) <? 0) eqn:Hneg; [lia|].
    replace (Z.to_nat (-1 + Z.of_nat (length l))) with (pred (length l)) by lia.
    rewrite <- last_lookup, Hlast. reflexivity.
  - apply last_None in Hlast. contradiction.
Qed.

Lemma start_adventure_existing gemini uid w s last_log :
  ADVENTURE_SESSIONS w !! uid = Some s ->
  last (story_log s) = Some last_log ->
  start_adventure gemini uid w = (Ok (ALREADY_PREFIX +:+ py_str last_log), w).
Proof.
  intros Hw Hlast. unfold_tool. cbn. rewrite Hw. cbn.
  destruct (seq_index_last (story_log s)) as (x & Hx & ->).
  - intros Hnil. rewrite Hnil in Hlast. discriminate.
  - cbn. congruence.
Qed.

Lemma logs_seeded_same w w' :
  ADVENTURE_SESSIONS w' = ADVENTURE_SESSIONS w -> logs_seeded w -> logs_seeded w'.
Proof. unfold logs_seeded. intros ->. auto. Qed.

Lemma logs_seeded_insert (m : gmap string session) t t' uid s :
  story_log s <> [] -> logs_seeded (World m t) -> logs_seeded (World (<[uid := s]> m) t').
Proof.
  unfold logs_seeded. cbn. intros Hs Hm uid' s' Hl.
  destruct (decide (uid = uid')) as [<-|Hne].
  - rewrite lookup_insert_eq in Hl. congruence.
  - rewrite lookup_insert_ne in Hl by assumption. eauto.
Qed.

Lemma logs_seeded_alter (m : gmap string session) t t' uid (f : session -> session) :
  (forall s, story_log s <> [] -> story_log (f s) <> []) ->
  logs_seeded (World m t) -> logs_seeded (World (alter f uid m) t').
Proof.
  unfold logs_seeded. cbn. intros Hf Hm uid' s' Hl.
  destruct (decide (uid = uid')) as [<-|Hne].
  - rewrite lookup_alter_eq in Hl. destruct (m !! uid) as [s|] eqn:Hs; [|discriminate].
    cbn in Hl. injection Hl as <-. eauto.
  - rewrite lookup_alter_ne in Hl by assumption. eauto.
Qed.

Lemma logs_seeded_delete (m : gmap string session) t t' uid :
  logs_seeded (World m t) -> logs_seeded (World (delete uid m) t').
Proof.
  unfold logs_seeded. cbn. intros Hm uid' s' Hl.
  destruct (decide (uid = uid')) as [<-|Hne].
  - rewrite lookup_delete_eq in Hl. discriminate.
  - rewrite lookup_delete_ne in Hl by assumption. eauto.
Qed.

Lemma logs_seeded_trace (m : gmap string session) t t' :
  logs_seeded (World m t) -> logs_seeded (World m t').
Proof. apply logs_seeded_same. reflexivity. Qed.

Lemma snoc_not_nil {A : Type} (l : list A) x : l ++ [x] <> [].
Proof. destruct l; discriminate. Qed.

Lemma logs_seeded_run gemini c w :
  logs_seeded w -> logs_seeded (run gemini c w).2.
Proof.
  intros Hw. destruct w as [m t]. destruct c as [uid | uid choice | uid | uid];
    unfold_tool; cbn; destruct (m !! uid) as [s|] eqn:Hs; cbn.
  - step; exact Hw.
  - repeat step; cbn;
      first [ apply logs_seeded_insert with (t := t); [discriminate | exact Hw]
            | apply logs_seeded_trace with (t := t); exact Hw ].
  - repeat step; cbn;
      repeat first
        [ exact Hw
        | apply logs_seeded_trace with (t := t); exact Hw
        | apply logs_seeded_alter with (t := t);
          [ intros s0 Hs0; cbn; first [exact Hs0 | apply snoc_not_nil] | ] ].
  - exact Hw.
  - destruct (py_bool (inventory s)); cbn; [step|]; exact Hw.
  - exact Hw.
  - apply logs_seeded_delete with (t := t). exact Hw.
  - exact Hw.
Qed.

Lemma reachable_logs_seeded w : reachable w -> logs_seeded w.
Proof.
  induction 1 as [|gemini c w Hreach IH].
  - intros uid s Hl. cbn in Hl. rewrite lookup_empty in Hl. discriminate.
  - apply logs_seeded_run. exact IH.
Qed.

(** *** [reset_adventure] *)

Lemma reset_adventure_existing uid w s :
  ADVENTURE_SESSIONS w !! uid = Some s ->
  reset_adventure uid w =
    (Ok RESET_MESSAGE, World (delete uid (ADVENTURE_SESSIONS w)) (trace w)).
Proof. intros Hw. unfold_tool. cbn. rewrite Hw. reflexivity. Qed.

Lemma reset_adventure_absent uid w :
  ADVENTURE_SESSIONS w !! uid = None ->
  reset_adventure uid w = (Ok NOTHING_TO_RESET_MESSAGE, w).
Proof. intros Hw. unfold_tool. cbn. rewrite Hw. reflexivity. Qed.

Lemma reset_adventure_removes uid w :
  ADVENTURE_SESSIONS (reset_adventure uid w).2 !! uid = None.
Proof.
  destruct (ADVENTURE_SESSIONS w !! uid) as [s|] eqn:Hw.
  - rewrite (reset_adventure_existing _ _ _ Hw). cbn. apply lookup_delete_eq.
  - rewrite (reset_adventure_absent _ _ Hw). exact Hw.
Qed.

(** *** The list of choices against its first item *)

Lemma join_head_length sep x (rest : list string) :
  (String.length x <= String.length (join sep (x :: rest)))%nat.
Proof.
  destruct rest as [|y rest]; cbn [join]; [lia|].
  rewrite string_length_app. lia.
Qed.

Lemma py_str_length (v : pyval) :
  (forall t, (String.length t <= String.length (str_repr t))%nat) ->
  (String.length (py_str v) <= String.length (py_repr v))%nat.
Proof.
  intros Hrepr. destruct v; unfold py_str; first [apply Nat.le_refl | apply Hrepr].
Qed.

Lemma list_longer_than_head (cs : list pyval) c0 :
  (forall t, (String.length t <= String.length (str_repr t))%nat) ->
  head cs = Some c0 ->
  (String.length (py_str c0) < String.length (py_str (PList cs)))%nat.
Proof.
  intros Hrepr Hhead. destruct cs as [|c cs]; [discriminate|].
  injection Hhead as ->. unfold py_str at 2. cbn [py_repr map].
  rewrite !string_length_app.
  pose proof (join_head_length ", " (py_repr c0) (map py_repr cs)).
  pose proof (py_str_length c0 Hrepr). cbn [String.length]. lia.
Qed.

Lemma query_portion_image_url x :
  query_portion (IMAGE_URL_PREFIX +:+ x) = "text=" +:+ x.
Proof. reflexivity. Qed.

Lemma get_scene_image_str (prompt : string) w :
  has_surrogate prompt = false ->
  (get_scene_image (PStr prompt) w).1 = Ok (IMAGE_URL_PREFIX +:+ quote_plus_str prompt) /\
  ADVENTURE_SESSIONS (get_scene_image (PStr prompt) w).2 = ADVENTURE_SESSIONS w.
Proof. intros Henc. unfold_tool. cbn. rewrite Henc. split; reflexivity. Qed.

Lemma get_scene_image_surrogate (prompt : string) w :
  has_surrogate prompt = true ->
  (get_scene_image (PStr prompt) w).1 = Raise UnicodeEncodeError.
Proof. intros Henc. unfold_tool. cbn. rewrite Henc. reflexivity. Qed.

Lemma get_scene_image_pure (prompt : pyval) w1 w2 :
  (get_scene_image prompt w1).1 = (get_scene_image prompt w2).1.
Proof.
  unfold_tool. cbn. destruct (encodable prompt); [|reflexivity].
  destruct (quote_plus prompt); reflexivity.
Qed.

Lemma get_scene_image_store (prompt : pyval) w :
  ADVENTURE_SESSIONS (get_scene_image prompt w).2 = ADVENTURE_SESSIONS w.
Proof.
  unfold_tool. cbn. destruct (encodable prompt); [|reflexivity].
  destruct (quote_plus prompt); reflexivity.
Qed.

(** ** The claims *)

(** C1 (amended).  A call that fails before the session is written, because
    the backend call or the parsing raises or because [image_prompt] is
    missing, is not a string or is a string with an unpaired surrogate,
    leaves the session store as it was.  A call that fails while the
    response is formatted, because [choices] has fewer than three entries,
    has already written: [start_adventure] has created the session and
    [make_choice] has appended both log entries and replaced the
    inventory. *)
Theorem failing_call_store gemini uid choice w :
  (forall e,
      ADVENTURE_SESSIONS w !! uid = None ->
      fails_early (gemini [] initial_prompt) e ->
      (start_adventure gemini uid w).1 = Raise e /\
      ADVENTURE_SESSIONS (start_adventure gemini uid w).2 = ADVENTURE_SESSIONS w) /\
  (forall s e,
      ADVENTURE_SESSIONS w !! uid = Some s ->
      fails_early (gemini (story_log s) choice) e ->
      (make_choice gemini uid choice w).1 = Raise e /\
      ADVENTURE_SESSIONS (make_choice gemini uid choice w).2 = ADVENTURE_SESSIONS w) /\
  (forall nd ip narrative inv cs,
      ADVENTURE_SESSIONS w !! uid = None ->
      gemini [] initial_prompt = Ok nd ->
      has_fields nd ip narrative inv (PList cs) ->
      (length cs < 3)%nat ->
      (start_adventure gemini uid w).1 = Raise IndexError /\
      ADVENTURE_SESSIONS (start_adventure gemini uid w).2 =
        <[uid := Session [narrative] inv]> (ADVENTURE_SESSIONS w)) /\
  (forall s nd ip narrative inv cs,
      ADVENTURE_SESSIONS w !! uid = Some s ->
      gemini (story_log s) choice = Ok nd ->
      has_fields nd ip narrative inv (PList cs) ->
      (length cs < 3)%nat ->
      (make_choice gemini uid choice w).1 = Raise IndexError /\
      ADVENTURE_SESSIONS (make_choice gemini uid choice w).2 =
        <[uid := Session (story_log s ++ [PStr ("Player chose: " +:+ choice); narrative]) inv]>
          (ADVENTURE_SESSIONS w)).
Proof.
  split; [|split; [|split]].
  - intros e Hw Hfail. apply start_adventure_early; assumption.
  - intros s e Hw Hfail. eapply make_choice_early; eassumption.
  - intros nd ip narrative inv cs Hw Hg Hfields Hlen. split.
    + eapply start_adventure_short; eassumption.
    + destruct Hfields as (Hip & Henc & Hn & Hinv & _).
      eapply start_adventure_written; eassumption.
  - intros s nd ip narrative inv cs Hw Hg Hfields Hlen. split.
    + eapply make_choice_short; eassumption.
    + destruct Hfields as (Hip & Henc & Hn & Hinv & _).
      eapply make_choice_written; eassumption.
Qed.

(** C2 (amended).  When the parsed backend result has its four fields, with
    [image_prompt] a string without unpaired surrogate and [choices] a list
    of fewer than three entries, [start_adventure] for a user without a
    session and [make_choice] for a user with a session fail with
    [IndexError] instead of returning a response. *)
Theorem short_choices_raise gemini uid choice w nd ip narrative inv cs :
  has_fields nd ip narrative inv (PList cs) ->
  (length cs < 3)%nat ->
  (ADVENTURE_SESSIONS w !! uid = None ->
   gemini [] initial_prompt = Ok nd ->
   (start_adventure gemini uid w).1 = Raise IndexError) /\
  (forall s,
   ADVENTURE_SESSIONS w !! uid = Some s ->
   gemini (story_log s) choice = Ok nd ->
   (make_choice gemini uid choice w).1 = Raise IndexError).
Proof.
  intros Hfields Hlen. split.
  - intros Hw Hg. eapply start_adventure_short; eassumption.
  - intros s Hw Hg. eapply make_choice_short; eassumption.
Qed.

(** C3.  A successful [make_choice] for a user with a session appends two
    entries to that session's story log, the player-action record for
    [choice] and then the backend's [narrative], and replaces the inventory
    with the backend's [new_inventory]. *)
Theorem make_choice_appends gemini uid choice w s resp w' :
  ADVENTURE_SESSIONS w !! uid = Some s ->
  make_choice gemini uid choice w = (Ok resp, w') ->
  exists nd narrative inv,
    gemini (story_log s) choice = Ok nd /\
    getitem_key nd "narrative" = Ok narrative /\
    getitem_key nd "new_inventory" = Ok inv /\
    ADVENTURE_SESSIONS w' =
      <[uid := Session (story_log s ++ [PStr ("Player chose: " +:+ choice); narrative]) inv]>
        (ADVENTURE_SESSIONS w).
Proof.
  intros Hw Hrun.
  destruct (make_choice_returns _ _ _ _ _ _ _ Hw Hrun)
    as (nd & ip & narrative & inv & choices & Hg & Hip & Henc & Hn & Hinv & _).
  exists nd, narrative, inv. repeat split; try assumption.
  change w' with (Ok resp, w').2. rewrite <- Hrun.
  eapply make_choice_written; eassumption.
Qed.

(** C4.  A successful [start_adventure] for a user without a session creates
    one session, for that user, whose story log is the one-element list
    [[narrative]] and whose inventory is the backend's [new_inventory]. *)
Theorem start_adventure_creates gemini uid w resp w' :
  ADVENTURE_SESSIONS w !! uid = None ->
  start_adventure gemini uid w = (Ok resp, w') ->
  exists nd narrative inv,
    gemini [] initial_prompt = Ok nd /\
    getitem_key nd "narrative" = Ok narrative /\
    getitem_key nd "new_inventory" = Ok inv /\
    ADVENTURE_SESSIONS w' = <[uid := Session [narrative] inv]> (ADVENTURE_SESSIONS w) /\
    size (ADVENTURE_SESSIONS w') = S (size (ADVENTURE_SESSIONS w)).
Proof.
  intros Hw Hrun.
  destruct (start_adventure_returns _ _ _ _ _ Hw Hrun)
    as (nd & ip & narrative & inv & choices & Hg & Hip & Henc & Hn & Hinv & _).
  assert (Hst : ADVENTURE_SESSIONS w' =
                <[uid := Session [narrative] inv]> (ADVENTURE_SESSIONS w)).
  { change w' with (Ok resp, w').2. rewrite <- Hrun.
    eapply start_adventure_written; eassumption. }
  exists nd, narrative, inv. repeat split; try assumption.
  rewrite Hst. apply map_size_insert_None. exact Hw.
Qed.

(** C5.  For a user who has a session, in any state the server can reach,
    calling [start_adventure] again changes nothing (no session is touched,
    no backend request is made) and returns the message that ends with the
    latest story log entry, verbatim when that entry is a string. *)
Theorem start_adventure_again gemini uid w s :
  reachable w ->
  ADVENTURE_SESSIONS w !! uid = Some s ->
  exists last_log,
    last (story_log s) = Some last_log /\
    start_adventure gemini uid w =
      (Ok ("You are already in an adventure! Your last update was: " +:+ py_str last_log), w) /\
    (forall text, last_log = PStr text -> py_str last_log = text).
Proof.
  intros Hreach Hw.
  pose proof (reachable_logs_seeded w Hreach uid s Hw) as Hlog.
  destruct (last (story_log s)) as [last_log|] eqn:Hlast.
  - exists last_log. split; [reflexivity|]. split.
    + eapply start_adventure_existing; eassumption.
    + intros text ->. reflexivity.
  - apply last_None in Hlast. contradiction.
Qed.

(** C6.  For a user without a session, [make_choice] and [show_status] both
    return the same no-session message and leave the world as it was. *)
Theorem no_session_message gemini uid choice w :
  ADVENTURE_SESSIONS w !! uid = None ->
  make_choice gemini uid choice w = (Ok NO_SESSION_MESSAGE, w) /\
  show_status uid w = (Ok NO_SESSION_MESSAGE, w).
Proof.
  intros Hw. split.
  - apply make_choice_no_session. exact Hw.
  - apply show_status_no_session. exact Hw.
Qed.

(** C7.  [reset_adventure] removes an existing session and confirms it, after
    which [show_status] gives the no-session message; without a session it
    changes nothing and says so with a different message; and a second reset
    in a row always gives that second message and leaves the store as the
    first reset left it. *)
Theorem reset_adventure_idempotent uid w :
  (forall s,
      ADVENTURE_SESSIONS w !! uid = Some s ->
      reset_adventure uid w =
        (Ok RESET_MESSAGE, World (delete uid (ADVENTURE_SESSIONS w)) (trace w)) /\
      show_status uid (reset_adventure uid w).2 =
        (Ok NO_SESSION_MESSAGE, (reset_adventure uid w).2)) /\
  (ADVENTURE_SESSIONS w !! uid = None ->
      reset_adventure uid w = (Ok NOTHING_TO_RESET_MESSAGE, w)) /\
  RESET_MESSAGE <> NOTHING_TO_RESET_MESSAGE /\
  reset_adventure uid (reset_adventure uid w).2 =
    (Ok NOTHING_TO_RESET_MESSAGE, (reset_adventure uid w).2).
Proof.
  split; [|split; [|split]].
  - intros s Hw. split.
    + apply reset_adventure_existing with (s := s). exact Hw.
    + apply show_status_no_session. apply reset_adventure_removes.
  - apply reset_adventure_absent.
  - discriminate.
  - apply reset_adventure_absent. apply reset_adventure_removes.
Qed.

(** C8 (amended).  The scene image URL depends on the prompt alone: equal
    prompts give the same URL, whatever the state of the server, and the
    session store is not touched.  The prompt is embedded with a space
    turned into a plus sign, the always-safe bytes kept and every other byte
    percent-encoded, so the query portion holds no space and no exclamation
    mark; for the prompt [a dark cave!] it is [text=a+dark+cave%21].  (A
    prompt with an unpaired surrogate has no UTF-8 bytes: the call raises.) *)
Theorem scene_image_url (prompt other : pyval) (text : string) w1 w2 :
  (prompt = other ->
   (get_scene_image prompt w1).1 = (get_scene_image other w2).1) /\
  ADVENTURE_SESSIONS (get_scene_image prompt w1).2 = ADVENTURE_SESSIONS w1 /\
  (has_surrogate text = false ->
   (get_scene_image (PStr text) w1).1 = Ok (IMAGE_URL_PREFIX +:+ plus_encode text)) /\
  (has_surrogate text = true ->
   (get_scene_image (PStr text) w1).1 = Raise UnicodeEncodeError) /\
  query_portion (IMAGE_URL_PREFIX +:+ plus_encode text) = "text=" +:+ plus_encode text /\
  all_chars encoded_char (plus_encode text) = true /\
  char_in " " (query_portion (IMAGE_URL_PREFIX +:+ plus_encode text)) = false /\
  char_in "!" (query_portion (IMAGE_URL_PREFIX +:+ plus_encode text)) = false /\
  (get_scene_image (PStr "a dark cave!") w1).1 =
    Ok "https://via.placeholder.com/1024x1024.png?text=a+dark+cave%21".
Proof.
  split; [|split; [|split; [|split; [|split; [|split; [|split; [|split]]]]]]].
  - intros <-. apply get_scene_image_pure.
  - apply get_scene_image_store.
  - intros Henc. rewrite <- quote_plus_str_bytes. apply get_scene_image_str. exact Henc.
  - apply get_scene_image_surrogate.
  - apply query_portion_image_url.
  - apply plus_encode_chars.
  - rewrite query_portion_image_url, char_in_app.
    rewrite plus_encode_lacks by reflexivity. reflexivity.
  - rewrite query_portion_image_url, char_in_app.
    rewrite plus_encode_lacks by reflexivity. reflexivity.
  - reflexivity.
Qed.

(** C9 (amended).  For a user without a session, [start_adventure] sends the
    narrative backend one request, with an empty prior log and the initial
    player action [Start a new fantasy adventure for me in a mysterious,
    ancient forest.] *)
Theorem start_adventure_backend_call gemini uid w :
  ADVENTURE_SESSIONS w !! uid = None ->
  backend_calls (trace (start_adventure gemini uid w).2) =
    backend_calls (trace w) ++
    [([], "Start a new fantasy adventure for me in a mysterious, ancient forest.")].
Proof. apply start_adventure_calls. Qed.

(** C10.  When the backend result has at least three choices, the response of
    [start_adventure] and of [make_choice] shows on the line numbered 1 the
    rendering of the whole list of choices, and on the lines numbered 2 and 3
    the second and the third choice; no line shows the first choice alone:
    what follows [1.] is the bracketed list, which is longer than the first
    choice whenever a [repr] is no shorter than the string it quotes. *)
Theorem choices_rendering gemini uid choice w nd ip narrative inv cs :
  has_fields nd ip narrative inv (PList cs) ->
  (3 <= length cs)%nat ->
  exists c0 c1 c2,
    cs !! 0%nat = Some c0 /\ cs !! 1%nat = Some c1 /\ cs !! 2%nat = Some c2 /\
    (ADVENTURE_SESSIONS w !! uid = None ->
     gemini [] initial_prompt = Ok nd ->
     (start_adventure gemini uid w).1 =
       Ok ("A new adventure begins!" +:+ NL +:+ NL +:+
           py_str narrative +:+ NL +:+ NL +:+
           "Image: " +:+ (IMAGE_URL_PREFIX +:+ quote_plus_str ip) +:+ NL +:+ NL +:+
           "What do you do?" +:+ NL +:+
           "1. " +:+ py_str (PList cs) +:+ NL +:+
           "2. " +:+ py_str c1 +:+ NL +:+
           "3. " +:+ py_str c2 +:+ NL +:+
           "4. Or, type your own action...")) /\
    (forall s,
     ADVENTURE_SESSIONS w !! uid = Some s ->
     gemini (story_log s) choice = Ok nd ->
     (make_choice gemini uid choice w).1 =
       Ok (py_str narrative +:+ NL +:+ NL +:+
           "Image: " +:+ (IMAGE_URL_PREFIX +:+ quote_plus_str ip) +:+ NL +:+ NL +:+
           "What do you do?" +:+ NL +:+
           "1. " +:+ py_str (PList cs) +:+ NL +:+
           "2. " +:+ py_str c1 +:+ NL +:+
           "3. " +:+ py_str c2 +:+ NL +:+
           "4. Or, type your own action...")) /\
    py_str (PList cs) = "[" +:+ join ", " (map py_repr cs) +:+ "]" /\
    ((forall t, (String.length t <= String.length (str_repr t))%nat) ->
     py_str (PList cs) <> py_str c0).
Proof.
  intros Hfields Hlen.
  destruct cs as [|c0 [|c1 [|c2 rest]]]; cbn in Hlen; try lia.
  exists c0, c1, c2. split; [reflexivity|]. split; [reflexivity|]. split; [reflexivity|].
  split; [|split; [|split]].
  - intros Hw Hg. eapply start_adventure_full; try eassumption; reflexivity.
  - intros s Hw Hg. eapply make_choice_full; try eassumption; reflexivity.
  - reflexivity.
  - intros Hrepr Heq.
    pose proof (list_longer_than_head (c0 :: c1 :: c2 :: rest) c0 Hrepr eq_refl) as Hlt.
    rewrite Heq in Hlt. lia.
Qed.

End Properties.

(** ** Further properties of the tools *)

Section Tools.
Context `{Interpreter}.
Implicit Types (w : world) (gemini : backend) (uid choice : string).
Implicit Types (nd narrative inv : pyval) (s : session).

(** *** [show_status] *)

Lemma all_str_strings (items : list string) :
  all_str (map PStr items) = Ok items.
Proof. induction items as [|x items IH]; cbn; [reflexivity | rewrite IH; reflexivity]. Qed.

Lemma all_str_not_str (items : list pyval) :
  existsb not_str items = true -> all_str items = Raise TypeError.
Proof.
  induction items as [|v items IH]; cbn; [discriminate|].
  destruct v; cbn; try reflexivity.
  intros Hrest. rewrite (IH Hrest). reflexivity.
Qed.

(** X1.  For a user whose stored inventory is a list of strings,
    [show_status] answers with the items joined by a comma and a space, or
    with the empty-inventory message when the list is empty, and changes
    nothing. *)
Theorem show_status_listing uid w s (items : list string) :
  ADVENTURE_SESSIONS w !! uid = Some s ->
  inventory s = PList (map PStr items) ->
  show_status uid w =
    (Ok (match items with
         | [] => "Your inventory is empty."
         | _ :: _ => "Your inventory contains: " +:+ join ", " items
         end), w).
Proof.
  intros Hw Hinv. unfold_tool. cbn. rewrite Hw. cbn. rewrite Hinv.
  destruct items as [|x items]; [reflexivity|].
  cbn [py_bool map length Nat.eqb negb]. unfold str_join.
  rewrite <- (map_cons PStr), all_str_strings. reflexivity.
Qed.

Lemma show_status_world uid w : (show_status uid w).2 = w.
Proof.
  unfold_tool. cbn. destruct (ADVENTURE_SESSIONS w !! uid) as [s|]; cbn; [|reflexivity].
  destruct (py_bool (inventory s)); cbn; [|reflexivity].
  destruct (str_join ", " (inventory s)); reflexivity.
Qed.

(** X2.  [show_status] never changes the world: no session is touched and
    nothing is sent, whether it returns or raises. *)
Theorem show_status_read_only uid w : (show_status uid w).2 = w.
Proof. apply show_status_world. Qed.

Lemma run_frame gemini c w uid' :
  call_user c <> uid' ->
  ADVENTURE_SESSIONS (run gemini c w).2 !! uid' = ADVENTURE_SESSIONS w !! uid'.
Proof.
  intros Hne. destruct w as [m t]. destruct c as [uid | uid choice | uid | uid];
    cbn in Hne; unfold_tool; cbn; destruct (m !! uid) as [s|] eqn:Hs; cbn;
    repeat step; try destruct (py_bool (inventory s)); repeat step; frame_leaf.
Qed.

Lemma run_calls_quiet uid later w :
  forallb (fun bc => quiet uid bc.2) later = true ->
  ADVENTURE_SESSIONS (run_calls later w) !! uid = ADVENTURE_SESSIONS w !! uid.
Proof.
  revert w. induction later as [|[gemini c] later IH]; intros w Hq; [reflexivity|].
  cbn [forallb] in Hq. apply andb_prop in Hq as [Hc Hq].
  cbn [run_calls]. rewrite (IH _ Hq). cbn in Hc.
  destruct c as [u | u choice | u | u];
    try (cbn in Hc; apply run_frame; cbn; intros ->;
         rewrite String.eqb_refl in Hc; discriminate).
  cbn [run]. rewrite show_status_world. reflexivity.
Qed.

(** X3.  The inventory is stored as the backend sent it: when
    [start_adventure] returns and the backend's [new_inventory] is a list
    with an item that is not a string, [show_status] for that user raises
    [TypeError] and changes nothing, right after the start and after any
    further calls that are [show_status] or are made for other users. *)
Theorem unvalidated_inventory_breaks_status gemini uid w resp w' nd (items : list pyval)
    (later : list (backend * call)) :
  ADVENTURE_SESSIONS w !! uid = None ->
  start_adventure gemini uid w = (Ok resp, w') ->
  gemini [] initial_prompt = Ok nd ->
  getitem_key nd "new_inventory" = Ok (PList items) ->
  existsb not_str items = true ->
  forallb (fun bc => quiet uid bc.2) later = true ->
  show_status uid (run_calls later w') = (Raise TypeError, run_calls later w').
Proof.
  intros Hw Hrun Hg Hinv Hbad Hquiet.
  destruct (start_adventure_returns _ _ _ _ _ Hw Hrun)
    as (nd' & ip & narrative & inv & choices & Hg' & Hip & Henc & Hn & Hinv' & _).
  assert (nd' = nd) as -> by congruence.
  assert (inv = PList items) as -> by congruence.
  assert (Hst : ADVENTURE_SESSIONS w' =
                <[uid := Session [narrative] (PList items)]> (ADVENTURE_SESSIONS w)).
  { change w' with (Ok resp, w').2. rewrite <- Hrun.
    eapply start_adventure_written; eassumption. }
  pose proof (run_calls_quiet uid later w' Hquiet) as Hlater.
  rewrite Hst, lookup_insert_eq in Hlater.
  unfold_tool. cbn. rewrite Hlater. cbn.
  destruct items as [|v items]; [discriminate|].
  cbn [length Nat.eqb negb]. rewrite (all_str_not_str _ Hbad). reflexivity.
Qed.

(** *** One user's calls and the other users' sessions *)

(** X4.  A call made for one user leaves every other user's session exactly
    as it was, whatever the backend answers and whether the call returns or
    raises. *)
Theorem other_sessions_untouched gemini c w uid' :
  call_user c <> uid' ->
  ADVENTURE_SESSIONS (run gemini c w).2 !! uid' = ADVENTURE_SESSIONS w !! uid'.
Proof. apply run_frame. Qed.

(** X5.  The story log only grows: after any call other than a reset for
    that user, a user who had a session still has one, and the old log is a
    prefix of the new one. *)
Theorem story_log_append_only gemini c w uid s :
  ADVENTURE_SESSIONS w !! uid = Some s ->
  c <> Reset uid ->
  exists s',
    ADVENTURE_SESSIONS (run gemini c w).2 !! uid = Some s' /\
    story_log s `prefix_of` story_log s'.
Proof.
  intros Hw Hc. destruct (decide (call_user c = uid)) as [Hu|Hu].
  - destruct w as [m t]. cbn in Hw.
    destruct c as [u | u choice | u | u]; cbn in Hu; subst u;
      [ | | | congruence]; unfold_tool; cbn; rewrite Hw; cbn.
    + step; exists s; (split; [exact Hw | reflexivity]).
    + repeat step; cbn;
        rewrite ?lookup_alter_eq, ?Hw; cbn;
        (eexists; split; [first [exact Hw | reflexivity] | ]);
        cbn; rewrite <- ?app_assoc;
        first [reflexivity | apply prefix_app_r; reflexivity].
    + destruct (py_bool (inventory s)); cbn; [step|];
        exists s; (split; [exact Hw | reflexivity]).
  - exists s. split; [|reflexivity]. rewrite run_frame by exact Hu. exact Hw.
Qed.

(** X6.  [make_choice] never creates and never deletes a session: the users
    with a session are the same before and after, whatever the outcome. *)
Theorem make_choice_keeps_users gemini uid choice w :
  dom (ADVENTURE_SESSIONS (make_choice gemini uid choice w).2) =
    dom (ADVENTURE_SESSIONS w).
Proof.
  destruct w as [m t]. unfold_tool. cbn.
  destruct (m !! uid) as [s|] eqn:Hs; cbn; [|reflexivity].
  repeat step; cbn; rewrite ?dom_alter_L; reflexivity.
Qed.

(** *** Requests to the narrative backend *)

(** X7.  For a user with a session, [make_choice] sends the backend exactly
    one request, carrying the stored story log and the player's choice,
    whatever happens afterwards. *)
Theorem make_choice_backend_call gemini uid choice w s :
  ADVENTURE_SESSIONS w !! uid = Some s ->
  backend_calls (trace (make_choice gemini uid choice w).2) =
    backend_calls (trace w) ++ [(story_log s, choice)].
Proof.
  intros Hw. unfold_tool. cbn. rewrite Hw. cbn.
  repeat step; cbn; unfold backend_calls; rewrite ?omap_app; cbn;
    rewrite ?app_nil_r; reflexivity.
Qed.

(** X8.  No request goes to the backend from [show_status], from
    [reset_adventure], from [start_adventure] for a user who has a session,
    or from [make_choice] for a user who has none. *)
Theorem no_backend_call gemini uid choice w :
  backend_calls (trace (show_status uid w).2) = backend_calls (trace w) /\
  backend_calls (trace (reset_adventure uid w).2) = backend_calls (trace w) /\
  (is_Some (ADVENTURE_SESSIONS w !! uid) ->
   backend_calls (trace (start_adventure gemini uid w).2) = backend_calls (trace w)) /\
  (ADVENTURE_SESSIONS w !! uid = None ->
   backend_calls (trace (make_choice gemini uid choice w).2) = backend_calls (trace w)).
Proof.
  split; [|split; [|split]].
  - rewrite show_status_world. reflexivity.
  - unfold_tool. cbn. destruct (ADVENTURE_SESSIONS w !! uid); reflexivity.
  - intros [s Hw]. unfold_tool. cbn. rewrite Hw. cbn. step; reflexivity.
  - intros Hw. unfold_tool. cbn. rewrite Hw. reflexivity.
Qed.

(** *** Calls that fail half way *)

(** X9.  [make_choice] writes step by step: when the backend result has an
    [image_prompt] that is a string without unpaired surrogate but no
    [narrative], the call raises after the player-action record alone has
    been appended, and the inventory is the old one. *)
Theorem make_choice_without_narrative gemini uid choice w s nd ip e :
  ADVENTURE_SESSIONS w !! uid = Some s ->
  gemini (story_log s) choice = Ok nd ->
  getitem_key nd "image_prompt" = Ok (PStr ip) ->
  has_surrogate ip = false ->
  getitem_key nd "narrative" = Raise e ->
  (make_choice gemini uid choice w).1 = Raise e /\
  ADVENTURE_SESSIONS (make_choice gemini uid choice w).2 =
    <[uid := Session (story_log s ++ [PStr ("Player chose: " +:+ choice)]) (inventory s)]>
      (ADVENTURE_SESSIONS w).
Proof.
  intros Hw Hg Hip Henc Hn. unfold_tool. cbn. rewrite Hw. cbn. rewrite Hg. cbn.
  rewrite Hip. cbn. rewrite Henc. cbn. rewrite Hn. cbn. split; [reflexivity|].
  rewrite (alter_existing _ _ _ _ Hw). reflexivity.
Qed.

(** X10.  When the backend result has an [image_prompt] that is a string
    without unpaired surrogate and a [narrative] but no [new_inventory],
    [make_choice] raises after both log entries have been appended, and the
    inventory is the old one. *)
Theorem make_choice_without_inventory gemini uid choice w s nd ip narrative e :
  ADVENTURE_SESSIONS w !! uid = Some s ->
  gemini (story_log s) choice = Ok nd ->
  getitem_key nd "image_prompt" = Ok (PStr ip) ->
  has_surrogate ip = false ->
  getitem_key nd "narrative" = Ok narrative ->
  getitem_key nd "new_inventory" = Raise e ->
  (make_choice gemini uid choice w).1 = Raise e /\
  ADVENTURE_SESSIONS (make_choice gemini uid choice w).2 =
    <[uid := Session (story_log s ++ [PStr ("Player chose: " +:+ choice); narrative])
               (inventory s)]>
      (ADVENTURE_SESSIONS w).
Proof.
  intros Hw Hg Hip Henc Hn Hinv. unfold_tool. cbn. rewrite Hw. cbn. rewrite Hg. cbn.
  rewrite Hip. cbn. rewrite Henc. cbn. rewrite Hn. cbn. rewrite Hinv. cbn.
  split; [reflexivity|].
  rewrite alter_alter_eq, (alter_existing _ _ _ _ Hw). cbn.
  rewrite <- app_assoc. reflexivity.
Qed.

(** X11.  [start_adventure] builds the whole session before it stores it:
    when [narrative] or [new_inventory] is missing from the backend result,
    the call raises and no session has been created.  The exception is the
    one of the missing key, unless the [image_prompt] already failed to
    encode. *)
Theorem start_adventure_without_field gemini uid w nd ip e :
  ADVENTURE_SESSIONS w !! uid = None ->
  gemini [] initial_prompt = Ok nd ->
  getitem_key nd "image_prompt" = Ok (PStr ip) ->
  getitem_key nd "narrative" = Raise e \/
  ((exists narrative, getitem_key nd "narrative" = Ok narrative) /\
   getitem_key nd "new_inventory" = Raise e) ->
  (exists raised, (start_adventure gemini uid w).1 = Raise raised) /\
  ADVENTURE_SESSIONS (start_adventure gemini uid w).2 = ADVENTURE_SESSIONS w /\
  (has_surrogate ip = false -> (start_adventure gemini uid w).1 = Raise e).
Proof.
  intros Hw Hg Hip Hmiss. unfold_tool. cbn. rewrite Hw, Hg. cbn. rewrite Hip. cbn.
  destruct (has_surrogate ip); cbn.
  - split; [eexists; reflexivity|]. split; [reflexivity | discriminate].
  - destruct Hmiss as [Hn | [[narrative Hn] Hinv]]; rewrite Hn; cbn.
    + split; [eexists; reflexivity|]. split; reflexivity.
    + rewrite Hinv. split; [eexists; reflexivity|]. split; reflexivity.
Qed.

(** *** Start, reset and the states in between *)

(** X12.  For a user without a session, [start_adventure] followed by
    [reset_adventure] gives back the session store as it was, whether the
    start returned or raised. *)
Theorem start_then_reset gemini uid w :
  ADVENTURE_SESSIONS w !! uid = None ->
  ADVENTURE_SESSIONS (reset_adventure uid (start_adventure gemini uid w).2).2 =
    ADVENTURE_SESSIONS w.
Proof.
  intros Hw. destruct w as [m t]. cbn in Hw. unfold_tool. cbn. rewrite Hw. cbn.
  repeat step; cbn; rewrite ?Hw, ?lookup_insert_eq; cbn;
    rewrite ?delete_insert_eq, ?delete_id by exact Hw; reflexivity.
Qed.

(** X13.  In every state the server can reach, a stored session has a story
    log with at least one entry. *)
Theorem story_log_never_empty w uid s :
  reachable w ->
  ADVENTURE_SESSIONS w !! uid = Some s ->
  story_log s <> [].
Proof. intros Hreach. apply (reachable_logs_seeded w Hreach). Qed.

End Tools.

(** ** Further properties of the text functions *)

(** *** The encoded prompt *)

Lemma plus_decode_byte b rest :
  plus_decode (plus_encode_byte b +:+ rest) = String b (plus_decode rest).
Proof. destruct b as [[] [] [] [] [] [] [] []]; reflexivity. Qed.

Lemma plus_decode_encode s : plus_decode (plus_encode s) = s.
Proof.
  induction s as [|b s IH]; [reflexivity|].
  cbn [plus_encode]. rewrite plus_decode_byte, IH. reflexivity.
Qed.

Lemma plus_encode_byte_safe b :
  always_safe b = true -> plus_encode_byte b = String b EmptyString.
Proof. each_byte b. Qed.

Lemma plus_encode_byte_length b :
  String.length (plus_encode_byte b) = 1%nat \/ String.length (plus_encode_byte b) = 3%nat.
Proof. destruct b as [[] [] [] [] [] [] [] []]; vm_compute; auto. Qed.

Lemma string_app_inv_head (a b c : string) : a +:+ b = a +:+ c -> b = c.
Proof.
  induction a as [|x a IH]; [trivial|].
  rewrite !append_cons. intros Heq. injection Heq as Heq. exact (IH Heq).
Qed.

(** X14.  Different prompts never share an image URL: the encoding can be
    read back, so two string prompts for which the same URL is returned are
    the same prompt. *)
Theorem scene_image_url_injective `{Interpreter} (a b url : string) (w1 w2 : world) :
  (get_scene_image (PStr a) w1).1 = Ok url ->
  (get_scene_image (PStr b) w2).1 = Ok url ->
  a = b.
Proof.
  intros Ha Hb.
  destruct (has_surrogate a) eqn:Hsa;
    [rewrite (get_scene_image_surrogate a w1 Hsa) in Ha; discriminate|].
  destruct (has_surrogate b) eqn:Hsb;
    [rewrite (get_scene_image_surrogate b w2 Hsb) in Hb; discriminate|].
  destruct (get_scene_image_str a w1 Hsa) as [Ha' _].
  destruct (get_scene_image_str b w2 Hsb) as [Hb' _].
  rewrite Ha' in Ha. rewrite Hb' in Hb. rewrite <- Hb in Ha. injection Ha as Heq.
  apply string_app_inv_head in Heq. rewrite !quote_plus_str_bytes in Heq.
  rewrite <- (plus_decode_encode a), <- (plus_decode_encode b), Heq. reflexivity.
Qed.

(** X15.  A prompt made of letters, digits and the four characters
    underscore, dot, hyphen and tilde is embedded in the URL unchanged. *)
Theorem quote_plus_safe_unchanged (s : string) :
  all_chars always_safe s = true -> quote_plus_str s = s.
Proof.
  rewrite quote_plus_str_bytes.
  induction s as [|b s IH]; [reflexivity|].
  cbn [all_chars plus_encode]. intros Hs. apply andb_true_iff in Hs as [Hb Hs].
  rewrite (plus_encode_byte_safe b Hb), (IH Hs). reflexivity.
Qed.

(** X16.  The encoded prompt is at least as long as the prompt and at most
    three times as long, counted in bytes. *)
Theorem quote_plus_length (s : string) :
  (String.length s <= String.length (quote_plus_str s) <= 3 * String.length s)%nat.
Proof.
  rewrite quote_plus_str_bytes.
  induction s as [|b s IH]; [cbn; lia|].
  cbn [plus_encode String.length]. rewrite string_length_app.
  destruct (plus_encode_byte_length b) as [-> | ->]; lia.
Qed.

(** *** The characters of a text *)

Lemma utf8_chars_shape s :
  forallb chunk_ok (utf8_chars s) = true /\
  forallb starts_char (tail (utf8_chars s)) = true.
Proof.
  induction s as [|c s [IHok IHstart]]; [split; reflexivity|].
  destruct s as [|c' s]; [split; reflexivity|].
  rewrite utf8_chars_step.
  destruct (utf8_chars_cons c' s) as (h & t & Hs). rewrite Hs in *.
  cbn [forallb tail] in *. apply andb_true_iff in IHok as [Hh Ht].
  destruct (is_continuation c') eqn:Hc'; cbn [forallb tail chunk_ok starts_char all_chars].
  - cbn [chunk_ok] in Hh. rewrite Hc', Hh, Ht, IHstart. split; reflexivity.
  - cbn [chunk_ok] in Hh. rewrite Hc', Hh, Ht, IHstart. split; reflexivity.
Qed.

(** Splitting again what was put together from well-shaped characters. *)
Lemma utf8_chars_append c t (rest : list string) :
  all_chars is_continuation t = true ->
  forallb starts_char rest = true ->
  utf8_chars (concat_str rest) = rest ->
  utf8_chars (String c t +:+ concat_str rest) = String c t :: rest.
Proof.
  intros Ht Hrest Hsplit. revert c. induction t as [|d t IH]; intros c.
  - rewrite append_cons. change (EmptyString +:+ concat_str rest) with (concat_str rest).
    destruct rest as [|ch rest]; [reflexivity|].
    cbn [forallb] in Hrest. apply andb_true_iff in Hrest as [Hch _].
    destruct ch as [|c' ch]; [discriminate|]. cbn [starts_char] in Hch.
    cbn [concat_str] in *. rewrite append_cons in *.
    rewrite utf8_chars_step, Hsplit.
    destruct (is_continuation c'); [discriminate | reflexivity].
  - cbn [all_chars] in Ht. apply andb_true_iff in Ht as [Hd Ht].
    rewrite !append_cons. rewrite utf8_chars_step, Hd.
    rewrite <- append_cons, (IH Ht d). reflexivity.
Qed.

Lemma utf8_chars_resplit (chars : list string) :
  forallb chunk_ok chars = true ->
  forallb starts_char (tail chars) = true ->
  utf8_chars (concat_str chars) = chars.
Proof.
  induction chars as [|ch rest IH]; [reflexivity|].
  cbn [forallb tail concat_str]. intros Hok Hstart.
  apply andb_true_iff in Hok as [Hch Hok].
  destruct ch as [|c t]; [discriminate|]. cbn [chunk_ok] in Hch.
  apply utf8_chars_append; [exact Hch | exact Hstart |].
  apply IH; [exact Hok|].
  destruct rest as [|ch' rest]; [reflexivity|].
  cbn [forallb tail] in *. apply andb_true_iff in Hstart as [_ Hstart]. exact Hstart.
Qed.

(** *** Stripping *)

Lemma lstrip_split (chars : list string) :
  exists dropped,
    chars = dropped ++ lstrip_chars chars /\ forallb py_isspace dropped = true.
Proof.
  induction chars as [|ch rest (d & Hd & Hsp)]; [exists []; split; reflexivity|].
  cbn [lstrip_chars]. destruct (py_isspace ch) eqn:Hch.
  - exists (ch :: d). cbn [forallb]. rewrite Hch, Hsp. split; [|reflexivity].
    cbn. rewrite <- Hd. reflexivity.
  - exists []. split; reflexivity.
Qed.

Lemma rstrip_split (chars : list string) :
  exists dropped,
    chars = rstrip_chars chars ++ dropped /\ forallb py_isspace dropped = true.
Proof.
  induction chars as [|ch rest (d & Hd & Hsp)]; [exists []; split; reflexivity|].
  cbn [rstrip_chars]. destruct (rstrip_chars rest) as [|k kept] eqn:Hk.
  - cbn in Hd. subst d. destruct (py_isspace ch) eqn:Hch.
    + exists (ch :: rest). cbn [forallb]. rewrite Hch, Hsp. split; reflexivity.
    + exists rest. split; [reflexivity | exact Hsp].
  - exists d. split; [|exact Hsp]. cbn [app]. f_equal. exact Hd.
Qed.

Lemma lstrip_head (chars : list string) ch :
  head (lstrip_chars chars) = Some ch -> py_isspace ch = false.
Proof.
  induction chars as [|c rest IH]; [discriminate|].
  cbn [lstrip_chars]. destruct (py_isspace c) eqn:Hc; [exact IH|].
  cbn. intros [= <-]. exact Hc.
Qed.

Lemma rstrip_last (chars : list string) ch :
  last (rstrip_chars chars) = Some ch -> py_isspace ch = false.
Proof.
  induction chars as [|c rest IH]; [discriminate|].
  cbn [rstrip_chars]. destruct (rstrip_chars rest) as [|k kept] eqn:Hk.
  - destruct (py_isspace c) eqn:Hc; [discriminate|]. cbn. intros [= <-]. exact Hc.
  - intros Hlast. apply IH. exact Hlast.
Qed.

Lemma rstrip_head (chars : list string) ch :
  head (rstrip_chars chars) = Some ch -> head chars = Some ch.
Proof.
  destruct chars as [|c rest]; [discriminate|].
  cbn [rstrip_chars]. destruct (rstrip_chars rest) as [|k kept].
  - destruct (py_isspace c); [discriminate | trivial].
  - trivial.
Qed.

Lemma lstrip_nil (chars : list string) :
  lstrip_chars chars = [] <-> forallb py_isspace chars = true.
Proof.
  induction chars as [|c rest IH]; [split; reflexivity|].
  cbn [lstrip_chars forallb]. destruct (py_isspace c); cbn; [exact IH|].
  split; discriminate.
Qed.

Lemma rstrip_nil (chars : list string) :
  rstrip_chars chars = [] <-> forallb py_isspace chars = true.
Proof.
  induction chars as [|c rest IH]; [split; reflexivity|].
  cbn [rstrip_chars forallb]. destruct (rstrip_chars rest) as [|k kept].
  - destruct (py_isspace c); cbn.
    + split; [intros _; apply IH; reflexivity | reflexivity].
    + split; discriminate.
  - split; [discriminate|]. intros Hall. apply andb_true_iff in Hall as [_ Hrest].
    apply IH in Hrest. discriminate.
Qed.

Lemma lstrip_unchanged (chars : list string) :
  (forall ch, head chars = Some ch -> py_isspace ch = false) ->
  lstrip_chars chars = chars.
Proof.
  destruct chars as [|c rest]; [reflexivity|].
  intros Hhead. cbn [lstrip_chars]. rewrite (Hhead c eq_refl). reflexivity.
Qed.

Lemma rstrip_cons ch (rest : list string) :
  rstrip_chars (ch :: rest) =
    match rstrip_chars rest with
    | [] => if py_isspace ch then [] else [ch]
    | k :: kept => ch :: k :: kept
    end.
Proof. cbn [rstrip_chars]. destruct (rstrip_chars rest); reflexivity. Qed.

Lemma rstrip_idempotent (chars : list string) :
  rstrip_chars (rstrip_chars chars) = rstrip_chars chars.
Proof.
  induction chars as [|c rest IH]; [reflexivity|].
  rewrite (rstrip_cons c rest). destruct (rstrip_chars rest) as [|k kept] eqn:Hk.
  - destruct (py_isspace c) eqn:Hc; [reflexivity|].
    rewrite rstrip_cons. cbn [rstrip_chars]. rewrite Hc. reflexivity.
  - rewrite rstrip_cons, IH. reflexivity.
Qed.

Lemma forallb_sub {A : Type} (p : A -> bool) (a b c : list A) :
  forallb p (a ++ b ++ c) = true -> forallb p b = true.
Proof.
  rewrite !forallb_app. intros Hall.
  apply andb_true_iff in Hall as [_ Hall]. apply andb_true_iff in Hall as [Hb _].
  exact Hb.
Qed.

Lemma stripped_chars_shape s :
  forallb chunk_ok (rstrip_chars (lstrip_chars (utf8_chars s))) = true /\
  forallb starts_char (tail (rstrip_chars (lstrip_chars (utf8_chars s)))) = true.
Proof.
  destruct (utf8_chars_shape s) as [Hok Hstart].
  destruct (lstrip_split (utf8_chars s)) as (d1 & Hd1 & _).
  destruct (rstrip_split (lstrip_chars (utf8_chars s))) as (d2 & Hd2 & _).
  set (kept := rstrip_chars (lstrip_chars (utf8_chars s))) in *.
  rewrite Hd2 in Hd1. rewrite Hd1 in Hok, Hstart. split.
  - exact (forallb_sub _ _ _ _ Hok).
  - destruct kept as [|k kept]; [reflexivity|]. cbn [tail].
    destruct d1 as [|x d1]; cbn [app tail] in Hstart.
    + rewrite forallb_app in Hstart. apply andb_true_iff in Hstart as [Hk _]. exact Hk.
    + change (d1 ++ k :: kept ++ d2) with (d1 ++ [k] ++ (kept ++ d2)) in Hstart.
      rewrite !forallb_app in Hstart.
      apply andb_true_iff in Hstart as [_ Hstart].
      apply andb_true_iff in Hstart as [_ Hstart].
      apply andb_true_iff in Hstart as [Hk _]. exact Hk.
Qed.

(** The characters of a stripped text are the kept characters. *)
Lemma py_strip_chars s :
  utf8_chars (py_strip s) = rstrip_chars (lstrip_chars (utf8_chars s)).
Proof.
  unfold py_strip. destruct (stripped_chars_shape s) as [Hok Hstart].
  apply utf8_chars_resplit; assumption.
Qed.

Lemma py_strip_ends s :
  (forall ch, head (utf8_chars (py_strip s)) = Some ch -> py_isspace ch = false) /\
  (forall ch, last (utf8_chars (py_strip s)) = Some ch -> py_isspace ch = false).
Proof.
  rewrite py_strip_chars. split; intros ch Hch.
  - apply rstrip_head in Hch. apply lstrip_head in Hch. exact Hch.
  - apply rstrip_last in Hch. exact Hch.
Qed.

Lemma py_strip_idempotent s : py_strip (py_strip s) = py_strip s.
Proof.
  unfold py_strip at 1. rewrite py_strip_chars.
  rewrite lstrip_unchanged.
  - rewrite rstrip_idempotent. reflexivity.
  - intros ch Hch. apply rstrip_head in Hch. apply lstrip_head in Hch. exact Hch.
Qed.

Lemma concat_str_nil (chars : list string) :
  forallb chunk_ok chars = true -> concat_str chars = EmptyString -> chars = [].
Proof.
  destruct chars as [|ch rest]; [reflexivity|].
  cbn [forallb concat_str]. intros Hok Hcat.
  apply andb_true_iff in Hok as [Hch _].
  destruct ch as [|c t]; [discriminate|]. rewrite append_cons in Hcat. discriminate.
Qed.

Lemma py_strip_blank s : py_strip s = EmptyString <-> blank s = true.
Proof.
  unfold blank. split.
  - intros Hempty. unfold py_strip in Hempty.
    apply concat_str_nil in Hempty; [|apply stripped_chars_shape].
    apply rstrip_nil in Hempty.
    destruct (lstrip_split (utf8_chars s)) as (d & Hd & Hsp).
    rewrite Hd, forallb_app, Hsp, Hempty. reflexivity.
  - intros Hall. unfold py_strip.
    assert (Hl : lstrip_chars (utf8_chars s) = []) by (apply lstrip_nil; exact Hall).
    rewrite Hl. reflexivity.
Qed.

(** *** Start-up *)

Lemma setting_empty environ name :
  setting environ name = EmptyString <-> ~ is_set environ name.
Proof.
  unfold setting, is_set. destruct (environ !! name) as [value|]; cbn [default from_option id].
  - rewrite py_strip_blank. split.
    + intros Hblank (v & [= <-] & Hv). congruence.
    + intros Hnot. destruct (blank value) eqn:Hb; [reflexivity|].
      exfalso. apply Hnot. exists value. split; [reflexivity | exact Hb].
  - split; [intros _ (v & Hv & _); discriminate | reflexivity].
Qed.

Lemma setting_set environ name :
  setting environ name <> EmptyString <-> is_set environ name.
Proof.
  rewrite setting_empty. split; [|tauto].
  unfold is_set. destruct (environ !! name) as [value|].
  - intros Hnn. destruct (blank value) eqn:Hb.
    + exfalso. apply Hnn. intros (v & [= <-] & Hv'). congruence.
    + exists value. split; [reflexivity | exact Hb].
  - intros Hnn. exfalso. apply Hnn. intros (v & Hv' & _). discriminate.
Qed.

Lemma load_config_cases environ :
  match load_config environ with
  | Configured cfg =>
      cfg = Config (setting environ "AUTH_TOKEN") (setting environ "MY_NUMBER")
              (setting environ "GEMINI_API_KEY") /\
      setting environ "AUTH_TOKEN" <> EmptyString /\
      setting environ "MY_NUMBER" <> EmptyString /\
      setting environ "GEMINI_API_KEY" <> EmptyString
  | AssertionError _ =>
      setting environ "AUTH_TOKEN" = EmptyString \/
      setting environ "MY_NUMBER" = EmptyString \/
      setting environ "GEMINI_API_KEY" = EmptyString
  end.
Proof.
  unfold load_config.
  destruct (String.eqb_spec (setting environ "AUTH_TOKEN") EmptyString) as [H1|H1];
    [left; exact H1|].
  destruct (String.eqb_spec (setting environ "MY_NUMBER") EmptyString) as [H2|H2];
    [right; left; exact H2|].
  destruct (String.eqb_spec (setting environ "GEMINI_API_KEY") EmptyString) as [H3|H3];
    [right; right; exact H3|].
  repeat split; assumption.
Qed.

(** X17.  The server is configured exactly when each of [AUTH_TOKEN],
    [MY_NUMBER] and [GEMINI_API_KEY] is present in the environment with
    something other than whitespace in it; otherwise an [assert] stops it. *)
Theorem load_config_configured environ :
  (exists cfg, load_config environ = Configured cfg) <->
  is_set environ "AUTH_TOKEN" /\ is_set environ "MY_NUMBER" /\
  is_set environ "GEMINI_API_KEY".
Proof.
  pose proof (load_config_cases environ) as Hcases.
  rewrite <- !setting_set. split.
  - intros [cfg Hcfg]. rewrite Hcfg in Hcases. tauto.
  - intros (H1 & H2 & H3). destruct (load_config environ) as [cfg|message].
    + exists cfg. reflexivity.
    + exfalso. tauto.
Qed.

(** X18.  Once the server is configured, [validate] returns the value of
    [MY_NUMBER] from the environment with the whitespace at both ends
    removed: it is not empty and neither starts nor ends with a whitespace
    character. *)
Theorem validate_stripped environ cfg :
  load_config environ = Configured cfg ->
  exists value,
    environ !! "MY_NUMBER" = Some value /\
    validate cfg = py_strip value /\
    validate cfg <> EmptyString /\
    (forall ch, head (utf8_chars (validate cfg)) = Some ch -> py_isspace ch = false) /\
    (forall ch, last (utf8_chars (validate cfg)) = Some ch -> py_isspace ch = false).
Proof.
  intros Hcfg. pose proof (load_config_cases environ) as Hcases.
  rewrite Hcfg in Hcases. destruct Hcases as (-> & _ & Hnum & _).
  cbn [validate MY_NUMBER].
  destruct (proj1 (setting_set environ "MY_NUMBER") Hnum) as (value & Hvalue & _).
  exists value. split; [exact Hvalue|]. unfold setting in *. rewrite Hvalue in *.
  cbn [default from_option id] in *. split; [reflexivity|]. split; [exact Hnum|].
  apply py_strip_ends.
Qed.

(** *** Replacing *)

Lemma prefix_cons c o x r :
  String.prefix (String c o) (String x r) = Ascii.eqb c x && String.prefix o r.
Proof.
  cbn [String.prefix]. destruct (ascii_dec c x) as [->|Hne].
  - rewrite Ascii.eqb_refl. reflexivity.
  - apply Ascii.eqb_neq in Hne. rewrite Hne. reflexivity.
Qed.

Lemma prefix_app old s b :
  String.prefix old s = true -> String.prefix old (s +:+ b) = true.
Proof.
  revert s. induction old as [|c o IH]; intros s.
  - intros _. destruct (s +:+ b); reflexivity.
  - destruct s as [|x s]; [discriminate|].
    rewrite append_cons, !prefix_cons. intros Hp.
    apply andb_true_iff in Hp as [Hc Ho]. rewrite Hc, (IH _ Ho). reflexivity.
Qed.

Lemma prefix_self old r : String.prefix old (old +:+ r) = true.
Proof.
  induction old as [|c o IH]; [destruct r; reflexivity|].
  rewrite append_cons, prefix_cons, Ascii.eqb_refl, IH. reflexivity.
Qed.

Lemma string_drop_app o r : string_drop (String.length o) (o +:+ r) = r.
Proof. induction o as [|c o IH]; [reflexivity|]. rewrite append_cons. exact IH. Qed.

Lemma string_drop_length n s :
  (String.length (string_drop n s) <= String.length s)%nat.
Proof.
  revert s. induction n as [|n IH]; intros s; [reflexivity|].
  destruct s as [|c s]; [reflexivity|]. cbn [string_drop String.length].
  specialize (IH s). lia.
Qed.

Lemma replace_from_skip k old new s :
  replace_from k old new s = replace_from 0 old new (string_drop k s).
Proof.
  revert k. induction s as [|c s IH]; intros k; [destruct k; reflexivity|].
  destruct k as [|k]; [reflexivity|]. cbn [replace_from string_drop]. apply IH.
Qed.

Lemma replace_from_copy old new c r :
  String.prefix old (String c r) = false ->
  replace_from 0 old new (String c r) = String c (replace_from 0 old new r).
Proof. intros Hp. cbn [replace_from]. rewrite Hp. reflexivity. Qed.

Lemma replace_from_match c o new r :
  replace_from 0 (String c o) new (String c o +:+ r) =
    new +:+ replace_from 0 (String c o) new r.
Proof.
  rewrite append_cons. cbn [replace_from]. rewrite <- append_cons, prefix_self.
  rewrite replace_from_skip. cbn [String.length]. rewrite Nat.sub_1_r. cbn [pred].
  rewrite string_drop_app. reflexivity.
Qed.

Lemma replace_from_absent old new s :
  occurs old s = false -> replace_from 0 old new s = s.
Proof.
  induction s as [|c s IH]; [reflexivity|].
  cbn [occurs]. intros Hocc. apply orb_false_iff in Hocc as [Hp Hrest].
  rewrite (replace_from_copy _ _ _ _ Hp), (IH Hrest). reflexivity.
Qed.

Lemma occurs_lead c o s : char_in c s = false -> occurs (String c o) s = false.
Proof.
  induction s as [|x s IH]; [reflexivity|].
  cbn [char_in occurs]. intros Hin. apply orb_false_iff in Hin as [Hx Hs].
  rewrite prefix_cons, Hx, (IH Hs). reflexivity.
Qed.

Lemma replace_from_no_lead c o new a b :
  char_in c a = false ->
  replace_from 0 (String c o) new (a +:+ b) = a +:+ replace_from 0 (String c o) new b.
Proof.
  induction a as [|x a IH]; [reflexivity|].
  cbn [char_in]. intros Hin. apply orb_false_iff in Hin as [Hx Ha].
  rewrite !append_cons, replace_from_copy.
  - rewrite (IH Ha). reflexivity.
  - rewrite prefix_cons, Hx. reflexivity.
Qed.

Lemma occurs_app_r sub a m : occurs sub (a +:+ m) = false -> occurs sub m = false.
Proof.
  induction a as [|x a IH]; [trivial|].
  rewrite append_cons. cbn [occurs]. intros Hocc.
  apply orb_false_iff in Hocc as [_ Hrest]. exact (IH Hrest).
Qed.

Lemma occurs_app_l sub m b : occurs sub (m +:+ b) = false -> occurs sub m = false.
Proof.
  induction m as [|x m IH].
  - change (EmptyString +:+ b) with b. intros Hocc.
    destruct sub as [|c o]; [|reflexivity].
    destruct b; discriminate.
  - rewrite append_cons. cbn [occurs]. intros Hocc.
    apply orb_false_iff in Hocc as [Hp Hrest]. rewrite (IH Hrest), orb_false_r.
    destruct (String.prefix sub (String x m)) eqn:Hpm; [|reflexivity].
    apply prefix_app with (b := b) in Hpm. rewrite append_cons in Hpm. congruence.
Qed.

Lemma occurs_longer a b s : occurs a s = false -> occurs (a +:+ b) s = false.
Proof.
  assert (Hpre : forall t, String.prefix a t = false -> String.prefix (a +:+ b) t = false).
  { induction a as [|c a IHa]; intros t; [destruct t; discriminate|].
    destruct t as [|x t]; [reflexivity|].
    rewrite append_cons, !prefix_cons. intros Hp.
    destruct (Ascii.eqb c x); [|reflexivity]. cbn in *. apply IHa. exact Hp. }
  induction s as [|x s IH]; cbn [occurs].
  - intros Hocc. rewrite orb_false_r in *. apply Hpre. exact Hocc.
  - intros Hocc. apply orb_false_iff in Hocc as [Hp Hrest].
    rewrite (Hpre _ Hp), (IH Hrest). reflexivity.
Qed.

(** *** Removing the code fences *)

Lemma remove_fence_cons c t :
  replace_from 0 FENCE EmptyString (String c t) =
    if String.prefix FENCE (String c t)
    then replace_from 0 FENCE EmptyString (string_drop 2 t)
    else String c (replace_from 0 FENCE EmptyString t).
Proof.
  cbn [replace_from]. destruct (String.prefix FENCE (String c t)); [|reflexivity].
  rewrite replace_from_skip. reflexivity.
Qed.

Lemma remove_fence_other x t :
  Ascii.eqb BACKTICK x = false ->
  replace_from 0 FENCE EmptyString (String x t) =
    String x (replace_from 0 FENCE EmptyString t).
Proof.
  intros Hx. apply replace_from_copy. unfold FENCE. rewrite prefix_cons, Hx. reflexivity.
Qed.

Lemma remove_fence_tick t :
  String.prefix (String BACKTICK (String BACKTICK EmptyString)) t = false ->
  replace_from 0 FENCE EmptyString (String BACKTICK t) =
    String BACKTICK (replace_from 0 FENCE EmptyString t).
Proof.
  intros Ht. apply replace_from_copy. unfold FENCE. rewrite prefix_cons, Ht.
  apply andb_false_r.
Qed.

(** One backtick cannot come to the front when it was not there. *)
Lemma remove_fence_front1 t :
  String.prefix (String BACKTICK EmptyString) t = false ->
  String.prefix (String BACKTICK EmptyString) (replace_from 0 FENCE EmptyString t) = false.
Proof.
  destruct t as [|y t]; [reflexivity|].
  rewrite prefix_cons. intros Hy. apply andb_false_iff in Hy as [Hy | Hy].
  - rewrite (remove_fence_other _ _ Hy), prefix_cons, Hy. reflexivity.
  - destruct t; discriminate.
Qed.

(** Two backticks cannot come to the front when they were not there. *)
Lemma remove_fence_front t :
  String.prefix (String BACKTICK (String BACKTICK EmptyString)) t = false ->
  String.prefix (String BACKTICK (String BACKTICK EmptyString))
    (replace_from 0 FENCE EmptyString t) = false.
Proof.
  destruct t as [|x t1]; [reflexivity|].
  rewrite prefix_cons. destruct (Ascii.eqb BACKTICK x) eqn:Hx.
  - apply Ascii.eqb_eq in Hx. subst x. cbn [andb]. intros Ht1.
    assert (Ht2 : String.prefix (String BACKTICK (String BACKTICK EmptyString)) t1 = false).
    { destruct t1 as [|y t2]; [reflexivity|]. rewrite prefix_cons in *.
      apply andb_false_iff in Ht1 as [Hy | Hy]; [rewrite Hy; reflexivity|].
      destruct t2; discriminate. }
    rewrite (remove_fence_tick _ Ht2), prefix_cons, Ascii.eqb_refl. cbn [andb].
    apply remove_fence_front1. exact Ht1.
  - intros _. rewrite (remove_fence_other _ _ Hx), prefix_cons, Hx. reflexivity.
Qed.

Lemma remove_fence_bounded n s :
  (String.length s <= n)%nat ->
  occurs FENCE (replace_from 0 FENCE EmptyString s) = false.
Proof.
  revert s. induction n as [|n IH]; intros s Hlen.
  - destruct s; [reflexivity | cbn in Hlen; lia].
  - destruct s as [|c t]; [reflexivity|]. cbn [String.length] in Hlen.
    rewrite remove_fence_cons.
    destruct (String.prefix FENCE (String c t)) eqn:Hp.
    + apply IH. pose proof (string_drop_length 2 t). lia.
    + cbn [occurs]. rewrite IH by lia. rewrite orb_false_r.
      unfold FENCE in *. rewrite prefix_cons in *.
      destruct (Ascii.eqb BACKTICK c); [|reflexivity]. cbn [andb] in *.
      apply remove_fence_front. exact Hp.
Qed.

Lemma remove_fence_none s :
  occurs FENCE (py_replace FENCE EmptyString s) = false.
Proof. apply (remove_fence_bounded (String.length s)). reflexivity. Qed.

Lemma concat_str_app (a b : list string) :
  concat_str (a ++ b) = concat_str a +:+ concat_str b.
Proof.
  induction a as [|x a IH]; [reflexivity|].
  cbn [app concat_str]. rewrite IH.
  generalize (concat_str a) (concat_str b). clear. intros u v.
  induction x as [|c x IHx]; [reflexivity|].
  rewrite !append_cons, IHx. reflexivity.
Qed.

Lemma py_strip_infix s : exists a b, s = a +:+ py_strip s +:+ b.
Proof.
  destruct (lstrip_split (utf8_chars s)) as (d1 & Hd1 & _).
  destruct (rstrip_split (lstrip_chars (utf8_chars s))) as (d2 & Hd2 & _).
  exists (concat_str d1), (concat_str d2). unfold py_strip.
  rewrite <- !concat_str_app, <- Hd2, <- Hd1. symmetry. apply utf8_chars_concat.
Qed.

Lemma clean_response_no_fence text : occurs FENCE (clean_response text) = false.
Proof.
  unfold clean_response.
  set (replaced := py_replace FENCE EmptyString _).
  destruct (py_strip_infix replaced) as (a & b & Hsplit).
  pose proof (remove_fence_none (py_replace (FENCE +:+ "json") EmptyString text)) as Hnone.
  fold replaced in Hnone. rewrite Hsplit in Hnone.
  apply occurs_app_r in Hnone. apply occurs_app_l in Hnone. exact Hnone.
Qed.

(** X19.  Whatever the service replies, the text handed to [json.loads]
    holds no code fence and neither starts nor ends with a whitespace
    character. *)
Theorem clean_response_clean text :
  occurs FENCE (clean_response text) = false /\
  (forall ch, head (utf8_chars (clean_response text)) = Some ch -> py_isspace ch = false) /\
  (forall ch, last (utf8_chars (clean_response text)) = Some ch -> py_isspace ch = false).
Proof.
  split; [apply clean_response_no_fence|]. unfold clean_response. apply py_strip_ends.
Qed.

(** X20.  Cleaning is idempotent: a reply that has been cleaned comes out
    of a second cleaning unchanged. *)
Theorem clean_response_idempotent text :
  clean_response (clean_response text) = clean_response text.
Proof.
  pose proof (clean_response_no_fence text) as Hnone.
  unfold clean_response at 1.
  change (py_replace (FENCE +:+ "json") EmptyString (clean_response text))
    with (replace_from 0 (FENCE +:+ "json") EmptyString (clean_response text)).
  rewrite replace_from_absent by (apply occurs_longer; exact Hnone).
  change (py_replace FENCE EmptyString (clean_response text))
    with (replace_from 0 FENCE EmptyString (clean_response text)).
  rewrite replace_from_absent by exact Hnone.
  unfold clean_response. apply py_strip_idempotent.
Qed.

Lemma char_in_app_false c a b :
  char_in c a = false -> char_in c b = false -> char_in c (a +:+ b) = false.
Proof. intros Ha Hb. rewrite char_in_app, Ha, Hb. reflexivity. Qed.

Lemma string_app_assoc (a b c : string) : (a +:+ b) +:+ c = a +:+ b +:+ c.
Proof.
  induction a as [|x a IH]; [reflexivity|]. rewrite !append_cons, IH. reflexivity.
Qed.

Lemma string_app_nil_r (a : string) : a +:+ EmptyString = a.
Proof. induction a as [|x a IH]; [reflexivity|]. rewrite append_cons, IH. reflexivity. Qed.

(** The first replacement on a fenced reply. *)
Lemma remove_json_fence pre body post :
  char_in BACKTICK pre = false ->
  char_in BACKTICK body = false ->
  char_in BACKTICK post = false ->
  String.prefix "json" post = false ->
  py_replace (FENCE +:+ "json") EmptyString
    (pre +:+ (FENCE +:+ "json") +:+ body +:+ FENCE +:+ post) =
  pre +:+ body +:+ FENCE +:+ post.
Proof.
  intros Hpre Hbody Hpost Hjson.
  change (py_replace (FENCE +:+ "json") EmptyString ?t)
    with (replace_from 0 (String BACKTICK (String BACKTICK (String BACKTICK "json")))
            EmptyString t).
  change (FENCE +:+ "json") with (String BACKTICK (String BACKTICK (String BACKTICK "json"))).
  rewrite (replace_from_no_lead _ _ _ pre) by exact Hpre.
  rewrite replace_from_match.
  change (EmptyString +:+ ?t) with t.
  rewrite (replace_from_no_lead _ _ _ body) by exact Hbody.
  rewrite replace_from_absent; [reflexivity|].
  unfold FENCE. rewrite !append_cons. change (EmptyString +:+ post) with post.
  cbn [occurs]. rewrite !prefix_cons, !Ascii.eqb_refl. cbn [andb].
  rewrite Hjson, (occurs_lead _ _ _ Hpost), orb_false_r.
  destruct post as [|p post]; [reflexivity|].
  cbn [char_in] in Hpost. apply orb_false_iff in Hpost as [Hp _].
  rewrite !prefix_cons, Hp. reflexivity.
Qed.

Lemma remove_plain_fence a post :
  char_in BACKTICK a = false ->
  char_in BACKTICK post = false ->
  py_replace FENCE EmptyString (a +:+ FENCE +:+ post) = a +:+ post.
Proof.
  intros Ha Hpost.
  change (py_replace FENCE EmptyString ?t) with (replace_from 0 FENCE EmptyString t).
  unfold FENCE at 1 2. rewrite (replace_from_no_lead _ _ _ a) by exact Ha.
  fold FENCE. unfold FENCE at 1 2. rewrite replace_from_match.
  change (EmptyString +:+ ?t) with t.
  rewrite replace_from_absent; [reflexivity|]. apply occurs_lead. exact Hpost.
Qed.

(** X21.  A reply wrapped in a json code fence is read like the bare reply:
    when the service answers with text around a fenced body, none of it with
    a backtick, [json.loads] is given the text without the two fences,
    stripped. *)
Theorem fenced_reply_unwrapped `{Interpreter}
    (generate : string -> result string) (json_loads : string -> result pyval)
    (story_log : list pyval) (user_choice pre body post : string) :
  char_in BACKTICK pre = false ->
  char_in BACKTICK body = false ->
  char_in BACKTICK post = false ->
  String.prefix "json" post = false ->
  generate (system_prompt story_log user_choice) =
    Ok (pre +:+ (FENCE +:+ "json") +:+ body +:+ FENCE +:+ post) ->
  narrative_backend generate json_loads story_log user_choice =
    json_loads (py_strip (pre +:+ body +:+ post)).
Proof.
  intros Hpre Hbody Hpost Hjson Hreply. unfold narrative_backend. rewrite Hreply.
  unfold clean_response. rewrite remove_json_fence by assumption.
  rewrite <- string_app_assoc, remove_plain_fence.
  - rewrite string_app_assoc. reflexivity.
  - apply char_in_app_false; assumption.
  - exact Hpost.
Qed.

(** ** The claims on concrete calls *)

#[local] Existing Instance no_float_interpreter.

Lemma returned {A : Type} (run : result A * world) (a : A) :
  run.1 = Ok a -> run = (Ok a, run.2).
Proof. destruct run as [r w]. cbn. intros ->. reflexivity. Qed.

Lemma started_reachable : reachable Demo.started.
Proof. exact (reachable_call Demo.gemini (Start "u1") initial_world reachable_initial). Qed.

Lemma started_session :
  ADVENTURE_SESSIONS Demo.started !! "u1" = Some Demo.first_session.
Proof. reflexivity. Qed.

Lemma fresh_user : ADVENTURE_SESSIONS initial_world !! "u1" = None.
Proof. reflexivity. Qed.

Lemma forest_fields :
  has_fields Demo.forest "dark forest" (PStr "You enter a forest.")
    (PList [PStr "torch"]) (PList [PStr "Look"; PStr "Run"; PStr "Wait"]).
Proof. repeat split. Qed.

Lemma flee_fields :
  has_fields Demo.flee "a dark cave!" (PStr "You flee safely.")
    (PList []) (PList [PStr "Rest"; PStr "Hide"; PStr "Go on"]).
Proof. repeat split. Qed.

Lemma one_choice_fields :
  has_fields Demo.one_choice "dark forest" (PStr "You enter a forest.")
    (PList [PStr "torch"]) (PList [PStr "Look"]).
Proof. repeat split. Qed.

(** C1, on concrete calls: a backend that raises, and one that names a
    single choice. *)
Lemma failing_call_store_witness :
  ((start_adventure Demo.failing_gemini "u1" initial_world).1 = Raise JSONDecodeError /\
   ADVENTURE_SESSIONS (start_adventure Demo.failing_gemini "u1" initial_world).2 =
     ADVENTURE_SESSIONS initial_world) /\
  ((make_choice Demo.failing_gemini "u1" "Run" Demo.started).1 = Raise JSONDecodeError /\
   ADVENTURE_SESSIONS (make_choice Demo.failing_gemini "u1" "Run" Demo.started).2 =
     ADVENTURE_SESSIONS Demo.started) /\
  ((start_adventure Demo.terse_gemini "u1" initial_world).1 = Raise IndexError /\
   ADVENTURE_SESSIONS (start_adventure Demo.terse_gemini "u1" initial_world).2 =
     <["u1" := Demo.first_session]> (ADVENTURE_SESSIONS initial_world)) /\
  ((make_choice Demo.terse_gemini "u1" "Run" Demo.started).1 = Raise IndexError /\
   ADVENTURE_SESSIONS (make_choice Demo.terse_gemini "u1" "Run" Demo.started).2 =
     <["u1" := Session [PStr "You enter a forest."; PStr "Player chose: Run";
                        PStr "You enter a forest."] (PList [PStr "torch"])]>
       (ADVENTURE_SESSIONS Demo.started)).
Proof.
  destruct (failing_call_store Demo.failing_gemini "u1" "Run" initial_world)
    as (Hstart & _ & _ & _).
  destruct (failing_call_store Demo.failing_gemini "u1" "Run" Demo.started)
    as (_ & Hchoice & _ & _).
  destruct (failing_call_store Demo.terse_gemini "u1" "Run" initial_world)
    as (_ & _ & Hstart' & _).
  destruct (failing_call_store Demo.terse_gemini "u1" "Run" Demo.started)
    as (_ & _ & _ & Hchoice').
  split; [|split; [|split]].
  - apply Hstart; [reflexivity | constructor].
  - apply (Hchoice Demo.first_session); [exact started_session | constructor].
  - apply (Hstart' Demo.one_choice "dark forest" (PStr "You enter a forest.")
             (PList [PStr "torch"]) [PStr "Look"]);
      [reflexivity | reflexivity | exact one_choice_fields | simpl; lia].
  - apply (Hchoice' Demo.first_session Demo.one_choice "dark forest"
             (PStr "You enter a forest.") (PList [PStr "torch"]) [PStr "Look"]);
      [exact started_session | reflexivity | exact one_choice_fields | simpl; lia].
Defined.

(** C1 as the specification states it fails: with a single choice in the
    reply, [start_adventure] raises and yet the user has a session
    afterwards, and [make_choice] raises and yet the log has grown and the
    inventory is the new one. *)
Lemma failing_call_writes_store :
  ADVENTURE_SESSIONS initial_world !! "u1" = None /\
  (start_adventure Demo.terse_gemini "u1" initial_world).1 = Raise IndexError /\
  ADVENTURE_SESSIONS (start_adventure Demo.terse_gemini "u1" initial_world).2 !! "u1" =
    Some Demo.first_session /\
  ADVENTURE_SESSIONS Demo.started !! "u1" = Some Demo.first_session /\
  (make_choice Demo.terse_gemini "u1" "Run" Demo.started).1 = Raise IndexError /\
  ADVENTURE_SESSIONS (make_choice Demo.terse_gemini "u1" "Run" Demo.started).2 !! "u1" =
    Some (Session [PStr "You enter a forest."; PStr "Player chose: Run";
                   PStr "You enter a forest."] (PList [PStr "torch"])).
Proof. repeat split; reflexivity. Qed.

(** C2, on concrete calls. *)
Lemma short_choices_raise_witness :
  (start_adventure Demo.terse_gemini "u1" initial_world).1 = Raise IndexError /\
  (make_choice Demo.terse_gemini "u1" "Run" Demo.started).1 = Raise IndexError.
Proof.
  assert (Hlen : (length [PStr "Look"] < 3)%nat) by (simpl; lia).
  destruct (short_choices_raise Demo.terse_gemini "u1" "Run" initial_world
              Demo.one_choice "dark forest" (PStr "You enter a forest.")
              (PList [PStr "torch"]) [PStr "Look"] one_choice_fields Hlen)
    as [Hstart _].
  destruct (short_choices_raise Demo.terse_gemini "u1" "Run" Demo.started
              Demo.one_choice "dark forest" (PStr "You enter a forest.")
              (PList [PStr "torch"]) [PStr "Look"] one_choice_fields Hlen)
    as [_ Hchoice].
  split.
  - apply Hstart; reflexivity.
  - apply (Hchoice Demo.first_session); [exact started_session | reflexivity].
Defined.

(** C2 as the specification states it fails for [start_adventure]: the user
    has a session, the backend would name a single choice, and the call
    returns the already-started message instead of raising.  With a single
    choice only, the call raises another exception than [IndexError] when
    the reply lacks [narrative], [new_inventory] or [image_prompt], when its
    [image_prompt] is a number or holds an unpaired surrogate, and when its
    [choices] is a dict. *)
Lemma start_with_session_returns :
  ADVENTURE_SESSIONS Demo.started !! "u1" = Some Demo.first_session /\
  Demo.terse_gemini [] initial_prompt = Ok Demo.one_choice /\
  getitem_key Demo.one_choice "choices" = Ok (PList [PStr "Look"]) /\
  (start_adventure Demo.terse_gemini "u1" Demo.started).1 =
    Ok "You are already in an adventure! Your last update was: You enter a forest." /\
  (make_choice (Replies.answering Replies.short_untold) "u1" "Run" Demo.started).1 =
    Raise KeyError /\
  (make_choice (Replies.answering Replies.short_unstocked) "u1" "Run" Demo.started).1 =
    Raise KeyError /\
  (make_choice (Replies.answering Replies.short_unpainted) "u1" "Run" Demo.started).1 =
    Raise KeyError /\
  (make_choice (Replies.answering Replies.short_numbered) "u1" "Run" Demo.started).1 =
    Raise TypeError /\
  (make_choice (Replies.answering Replies.short_surrogate) "u1" "Run" Demo.started).1 =
    Raise UnicodeEncodeError /\
  (make_choice (Replies.answering Replies.short_keyed) "u1" "Run" Demo.started).1 =
    Raise KeyError /\
  (start_adventure (Replies.answering Replies.short_untold) "u1" initial_world).1 =
    Raise KeyError /\
  (start_adventure (Replies.answering Replies.short_unstocked) "u1" initial_world).1 =
    Raise KeyError /\
  (start_adventure (Replies.answering Replies.short_unpainted) "u1" initial_world).1 =
    Raise KeyError /\
  (start_adventure (Replies.answering Replies.short_numbered) "u1" initial_world).1 =
    Raise TypeError /\
  (start_adventure (Replies.answering Replies.short_surrogate) "u1" initial_world).1 =
    Raise UnicodeEncodeError /\
  (start_adventure (Replies.answering Replies.short_keyed) "u1" initial_world).1 =
    Raise KeyError.
Proof. repeat split; reflexivity. Qed.

(** C3, on a concrete call. *)
Lemma make_choice_appends_witness :
  exists nd narrative inv,
    Demo.gemini [PStr "You enter a forest."] "Run" = Ok nd /\
    getitem_key nd "narrative" = Ok narrative /\
    getitem_key nd "new_inventory" = Ok inv /\
    ADVENTURE_SESSIONS (make_choice Demo.gemini "u1" "Run" Demo.started).2 =
      <["u1" := Session ([PStr "You enter a forest."] ++
                         [PStr ("Player chose: " +:+ "Run"); narrative]) inv]>
        (ADVENTURE_SESSIONS Demo.started).
Proof.
  assert (Hrun : exists resp,
             make_choice Demo.gemini "u1" "Run" Demo.started =
               (Ok resp, (make_choice Demo.gemini "u1" "Run" Demo.started).2)).
  { eexists. apply returned. reflexivity. }
  destruct Hrun as [resp Hrun].
  exact (make_choice_appends Demo.gemini "u1" "Run" Demo.started Demo.first_session
           resp _ started_session Hrun).
Defined.

(** C4, on a concrete call. *)
Lemma start_adventure_creates_witness :
  exists nd narrative inv,
    Demo.gemini [] initial_prompt = Ok nd /\
    getitem_key nd "narrative" = Ok narrative /\
    getitem_key nd "new_inventory" = Ok inv /\
    ADVENTURE_SESSIONS Demo.started =
      <["u1" := Session [narrative] inv]> (ADVENTURE_SESSIONS initial_world) /\
    size (ADVENTURE_SESSIONS Demo.started) = S (size (ADVENTURE_SESSIONS initial_world)).
Proof.
  assert (Hrun : exists resp,
             start_adventure Demo.gemini "u1" initial_world = (Ok resp, Demo.started)).
  { eexists. apply returned. reflexivity. }
  destruct Hrun as [resp Hrun].
  exact (start_adventure_creates Demo.gemini "u1" initial_world resp Demo.started
           fresh_user Hrun).
Defined.

(** C5, on a concrete call: the second [start_adventure] for the same user. *)
Lemma start_adventure_again_witness :
  exists last_log,
    last (story_log Demo.first_session) = Some last_log /\
    start_adventure Demo.terse_gemini "u1" Demo.started =
      (Ok ("You are already in an adventure! Your last update was: " +:+ py_str last_log),
       Demo.started) /\
    (forall text, last_log = PStr text -> py_str last_log = text).
Proof.
  exact (start_adventure_again Demo.terse_gemini "u1" Demo.started Demo.first_session
           started_reachable started_session).
Defined.

(** C6, on a concrete call. *)
Lemma no_session_message_witness :
  make_choice Demo.gemini "u1" "Run" initial_world = (Ok NO_SESSION_MESSAGE, initial_world) /\
  show_status "u1" initial_world = (Ok NO_SESSION_MESSAGE, initial_world).
Proof. exact (no_session_message Demo.gemini "u1" "Run" initial_world fresh_user). Defined.

(** C7, on a concrete call: reset after start, then status, then reset again. *)
Lemma reset_adventure_idempotent_witness :
  reset_adventure "u1" Demo.started =
    (Ok RESET_MESSAGE,
     World (delete "u1" (ADVENTURE_SESSIONS Demo.started)) (trace Demo.started)) /\
  show_status "u1" (reset_adventure "u1" Demo.started).2 =
    (Ok NO_SESSION_MESSAGE, (reset_adventure "u1" Demo.started).2) /\
  reset_adventure "u1" initial_world = (Ok NOTHING_TO_RESET_MESSAGE, initial_world) /\
  reset_adventure "u1" (reset_adventure "u1" Demo.started).2 =
    (Ok NOTHING_TO_RESET_MESSAGE, (reset_adventure "u1" Demo.started).2).
Proof.
  destruct (reset_adventure_idempotent "u1" Demo.started) as (Hsome & _ & _ & Htwice).
  destruct (reset_adventure_idempotent "u1" initial_world) as (_ & Hnone & _ & _).
  destruct (Hsome Demo.first_session started_session) as [Hreset Hstatus].
  split; [exact Hreset|]. split; [exact Hstatus|]. split; [|exact Htwice].
  apply Hnone. reflexivity.
Defined.

(** C8, on the specification's prompt. *)
Lemma scene_image_url_witness :
  (get_scene_image (PStr "a dark cave!") initial_world).1 =
    (get_scene_image (PStr "a dark cave!") Demo.started).1 /\
  (get_scene_image (PStr "a dark cave!") initial_world).1 =
    Ok (IMAGE_URL_PREFIX +:+ plus_encode "a dark cave!") /\
  query_portion (IMAGE_URL_PREFIX +:+ plus_encode "a dark cave!") = "text=a+dark+cave%21" /\
  char_in " " (query_portion (IMAGE_URL_PREFIX +:+ plus_encode "a dark cave!")) = false /\
  char_in "!" (query_portion (IMAGE_URL_PREFIX +:+ plus_encode "a dark cave!")) = false.
Proof.
  destruct (scene_image_url (PStr "a dark cave!") (PStr "a dark cave!") "a dark cave!"
              initial_world Demo.started)
    as (Hsame & _ & Hurl & _ & Hquery & _ & Hspace & Hbang & _).
  split; [apply Hsame; reflexivity|]. split; [apply Hurl; reflexivity|].
  split; [exact Hquery|]. split; [exact Hspace | exact Hbang].
Defined.

(** C8 as the specification states it fails: the spaces of the prompt are not
    percent-encoded, they come out as plus signs. *)
Lemma space_becomes_plus :
  (get_scene_image (PStr "a dark cave!") initial_world).1 =
    Ok "https://via.placeholder.com/1024x1024.png?text=a+dark+cave%21" /\
  IMAGE_URL_PREFIX +:+ spec_percent_encode "a dark cave!" =
    "https://via.placeholder.com/1024x1024.png?text=a%20dark%20cave%21" /\
  (get_scene_image (PStr "a dark cave!") initial_world).1 <>
    Ok (IMAGE_URL_PREFIX +:+ spec_percent_encode "a dark cave!").
Proof.
  split; [reflexivity|]. split; [reflexivity|].
  vm_compute. discriminate.
Qed.

(** C9, on a concrete call. *)
Lemma start_adventure_backend_call_witness :
  backend_calls (trace (start_adventure Demo.gemini "u1" initial_world).2) =
    backend_calls (trace initial_world) ++
    [([], "Start a new fantasy adventure for me in a mysterious, ancient forest.")].
Proof. exact (start_adventure_backend_call Demo.gemini "u1" initial_world fresh_user). Defined.

(** C9 as the specification states it fails: the action sent to the backend
    is not the string the specification quotes. *)
Lemma initial_action_differs :
  backend_calls (trace (start_adventure Demo.gemini "u1" initial_world).2) =
    [([], "Start a new fantasy adventure for me in a mysterious, ancient forest.")] /\
  backend_calls (trace (start_adventure Demo.gemini "u1" initial_world).2) <>
    [([], SPEC_INITIAL_ACTION)].
Proof.
  assert (Hcalls : backend_calls (trace (start_adventure Demo.gemini "u1" initial_world).2) =
            [([], "Start a new fantasy adventure for me in a mysterious, ancient forest.")])
    by reflexivity.
  split; [exact Hcalls|]. rewrite Hcalls. unfold SPEC_INITIAL_ACTION. discriminate.
Qed.

(** C10, on concrete calls: the first line of the menu is the whole list. *)
Lemma choices_rendering_witness :
  (start_adventure Demo.gemini "u1" initial_world).1 =
    Ok ("A new adventure begins!" +:+ NL +:+ NL +:+
        "You enter a forest." +:+ NL +:+ NL +:+
        "Image: https://via.placeholder.com/1024x1024.png?text=dark+forest" +:+ NL +:+ NL +:+
        "What do you do?" +:+ NL +:+
        "1. ['Look', 'Run', 'Wait']" +:+ NL +:+
        "2. Run" +:+ NL +:+
        "3. Wait" +:+ NL +:+
        "4. Or, type your own action...") /\
  (make_choice Demo.gemini "u1" "Run" Demo.started).1 =
    Ok ("You flee safely." +:+ NL +:+ NL +:+
        "Image: https://via.placeholder.com/1024x1024.png?text=a+dark+cave%21" +:+ NL +:+ NL +:+
        "What do you do?" +:+ NL +:+
        "1. ['Rest', 'Hide', 'Go on']" +:+ NL +:+
        "2. Hide" +:+ NL +:+
        "3. Go on" +:+ NL +:+
        "4. Or, type your own action...") /\
  py_str (PList [PStr "Look"; PStr "Run"; PStr "Wait"]) <> py_str (PStr "Look").
Proof.
  assert (Hlen : forall a b c : pyval, (3 <= length [a; b; c])%nat) by (intros; simpl; lia).
  destruct (choices_rendering Demo.gemini "u1" "Run" initial_world Demo.forest
              "dark forest" (PStr "You enter a forest.") (PList [PStr "torch"])
              [PStr "Look"; PStr "Run"; PStr "Wait"] forest_fields (Hlen _ _ _))
    as (c0 & c1 & c2 & H0 & H1 & H2 & Hstart & _ & _ & Hfirst).
  destruct (choices_rendering Demo.gemini "u1" "Run" Demo.started Demo.flee
              "a dark cave!" (PStr "You flee safely.") (PList [])
              [PStr "Rest"; PStr "Hide"; PStr "Go on"] flee_fields (Hlen _ _ _))
    as (d0 & d1 & d2 & G0 & G1 & G2 & _ & Hchoice & _ & _).
  injection H0 as <-. injection H1 as <-. injection H2 as <-.
  injection G0 as <-. injection G1 as <-. injection G2 as <-.
  split; [|split].
  - apply Hstart; reflexivity.
  - apply (Hchoice Demo.first_session); [exact started_session | reflexivity].
  - apply Hfirst. exact unicode_repr_length.
Defined.

(** ** The specification's two scenarios *)

Example scenario_start :
  ADVENTURE_SESSIONS (start_adventure Demo.gemini "u1" initial_world).2 !! "u1" =
    Some (Session [PStr "You enter a forest."] (PList [PStr "torch"])).
Proof. reflexivity. Qed.

Example scenario_choice :
  ADVENTURE_SESSIONS (make_choice Demo.gemini "u1" "Run" Demo.started).2 !! "u1" =
    Some (Session [PStr "You enter a forest."; PStr "Player chose: Run";
                   PStr "You flee safely."] (PList [])) /\
  (show_status "u1" (make_choice Demo.gemini "u1" "Run" Demo.started).2).1 =
    Ok "Your inventory is empty.".
Proof. split; reflexivity. Qed.

(** ** The further properties on concrete calls *)

Lemma show_status_listing_witness :
  show_status "u1" Demo.started = (Ok ("Your inventory contains: " +:+ "torch"), Demo.started).
Proof.
  exact (show_status_listing "u1" Demo.started Demo.first_session ["torch"]
           started_session eq_refl).
Defined.

Lemma counting_start :
  exists resp,
    start_adventure Replies.counting_gemini "u1" initial_world =
      (Ok resp, (start_adventure Replies.counting_gemini "u1" initial_world).2).
Proof. eexists. apply returned. reflexivity. Qed.

Lemma unvalidated_inventory_breaks_status_witness :
  show_status "u1"
    (run_calls [(Demo.gemini, Status "u1"); (Demo.gemini, Start "u2");
                (Demo.gemini, Choose "u2" "Run"); (Demo.gemini, Status "u1")]
       (start_adventure Replies.counting_gemini "u1" initial_world).2) =
    (Raise TypeError,
     run_calls [(Demo.gemini, Status "u1"); (Demo.gemini, Start "u2");
                (Demo.gemini, Choose "u2" "Run"); (Demo.gemini, Status "u1")]
       (start_adventure Replies.counting_gemini "u1" initial_world).2).
Proof.
  destruct counting_start as [resp Hrun].
  exact (unvalidated_inventory_breaks_status Replies.counting_gemini "u1" initial_world
           resp _ Replies.counted [PStr "torch"; PInt 3]
           [(Demo.gemini, Status "u1"); (Demo.gemini, Start "u2");
            (Demo.gemini, Choose "u2" "Run"); (Demo.gemini, Status "u1")]
           fresh_user Hrun eq_refl eq_refl eq_refl eq_refl).
Defined.

Lemma other_sessions_untouched_witness :
  ADVENTURE_SESSIONS (run Demo.gemini (Reset "u2") Demo.started).2 !! "u1" =
    ADVENTURE_SESSIONS Demo.started !! "u1" /\
  ADVENTURE_SESSIONS (run Demo.gemini (Start "u2") Demo.started).2 !! "u1" =
    ADVENTURE_SESSIONS Demo.started !! "u1".
Proof.
  assert (Hne : "u2" <> "u1") by discriminate.
  split.
  - exact (other_sessions_untouched Demo.gemini (Reset "u2") Demo.started "u1" Hne).
  - exact (other_sessions_untouched Demo.gemini (Start "u2") Demo.started "u1" Hne).
Defined.

Lemma story_log_append_only_witness :
  exists s',
    ADVENTURE_SESSIONS (run Replies.untold_gemini (Choose "u1" "Run") Demo.started).2 !! "u1" =
      Some s' /\
    story_log Demo.first_session `prefix_of` story_log s'.
Proof.
  assert (Hc : Choose "u1" "Run" <> Reset "u1") by discriminate.
  exact (story_log_append_only Replies.untold_gemini (Choose "u1" "Run") Demo.started "u1"
           Demo.first_session started_session Hc).
Defined.

Lemma make_choice_backend_call_witness :
  backend_calls (trace (make_choice Demo.gemini "u1" "Run" Demo.started).2) =
    backend_calls (trace Demo.started) ++ [([PStr "You enter a forest."], "Run")].
Proof.
  exact (make_choice_backend_call Demo.gemini "u1" "Run" Demo.started Demo.first_session
           started_session).
Defined.

Lemma make_choice_without_narrative_witness :
  (make_choice Replies.untold_gemini "u1" "Run" Demo.started).1 = Raise KeyError /\
  ADVENTURE_SESSIONS (make_choice Replies.untold_gemini "u1" "Run" Demo.started).2 =
    <["u1" := Session ([PStr "You enter a forest."] ++ [PStr ("Player chose: " +:+ "Run")])
                (PList [PStr "torch"])]>
      (ADVENTURE_SESSIONS Demo.started).
Proof.
  exact (make_choice_without_narrative Replies.untold_gemini "u1" "Run" Demo.started
           Demo.first_session Replies.no_narrative "dark forest" KeyError
           started_session eq_refl eq_refl eq_refl eq_refl).
Defined.

Lemma make_choice_without_inventory_witness :
  (make_choice Replies.unstocked_gemini "u1" "Run" Demo.started).1 = Raise KeyError /\
  ADVENTURE_SESSIONS (make_choice Replies.unstocked_gemini "u1" "Run" Demo.started).2 =
    <["u1" := Session ([PStr "You enter a forest."] ++
                       [PStr ("Player chose: " +:+ "Run"); PStr "You flee safely."])
                (PList [PStr "torch"])]>
      (ADVENTURE_SESSIONS Demo.started).
Proof.
  exact (make_choice_without_inventory Replies.unstocked_gemini "u1" "Run" Demo.started
           Demo.first_session Replies.no_inventory "dark forest" (PStr "You flee safely.")
           KeyError started_session eq_refl eq_refl eq_refl eq_refl eq_refl).
Defined.

Lemma start_adventure_without_field_witness :
  ((start_adventure Replies.untold_gemini "u1" initial_world).1 = Raise KeyError /\
   ADVENTURE_SESSIONS (start_adventure Replies.untold_gemini "u1" initial_world).2 =
     ADVENTURE_SESSIONS initial_world) /\
  ((start_adventure Replies.unstocked_gemini "u1" initial_world).1 = Raise KeyError /\
   ADVENTURE_SESSIONS (start_adventure Replies.unstocked_gemini "u1" initial_world).2 =
     ADVENTURE_SESSIONS initial_world).
Proof.
  split.
  - destruct (start_adventure_without_field Replies.untold_gemini "u1" initial_world
                Replies.no_narrative "dark forest" KeyError fresh_user eq_refl eq_refl)
      as (_ & Hstore & Hraise).
    + left. reflexivity.
    + split; [apply Hraise; reflexivity | exact Hstore].
  - destruct (start_adventure_without_field Replies.unstocked_gemini "u1" initial_world
                Replies.no_inventory "dark forest" KeyError fresh_user eq_refl eq_refl)
      as (_ & Hstore & Hraise).
    + right. split; [exists (PStr "You flee safely."); reflexivity | reflexivity].
    + split; [apply Hraise; reflexivity | exact Hstore].
Defined.

Lemma start_then_reset_witness :
  ADVENTURE_SESSIONS (reset_adventure "u1" Demo.started).2 =
    ADVENTURE_SESSIONS initial_world.
Proof. exact (start_then_reset Demo.gemini "u1" initial_world fresh_user). Defined.

Lemma story_log_never_empty_witness :
  reachable Demo.started /\ story_log Demo.first_session <> [].
Proof.
  split; [exact started_reachable|].
  exact (story_log_never_empty Demo.started "u1" Demo.first_session
           started_reachable started_session).
Defined.

Lemma scene_image_url_injective_witness :
  (get_scene_image (PStr "dark forest") initial_world).1 =
    Ok "https://via.placeholder.com/1024x1024.png?text=dark+forest" /\
  (get_scene_image (PStr "dark forest") Demo.started).1 =
    Ok "https://via.placeholder.com/1024x1024.png?text=dark+forest" /\
  "dark forest" = "dark forest".
Proof.
  assert (H1 : (get_scene_image (PStr "dark forest") initial_world).1 =
               Ok "https://via.placeholder.com/1024x1024.png?text=dark+forest")
    by reflexivity.
  assert (H2 : (get_scene_image (PStr "dark forest") Demo.started).1 =
               Ok "https://via.placeholder.com/1024x1024.png?text=dark+forest")
    by reflexivity.
  split; [exact H1|]. split; [exact H2|].
  exact (scene_image_url_injective "dark forest" "dark forest" _ initial_world
           Demo.started H1 H2).
Defined.

Lemma quote_plus_safe_unchanged_witness :
  quote_plus_str "dark_forest-2.png~" = "dark_forest-2.png~".
Proof. exact (quote_plus_safe_unchanged "dark_forest-2.png~" eq_refl). Defined.

Lemma environ_configured :
  load_config Replies.environ = Configured (Config "secret" "919876543210" "key").
Proof. reflexivity. Qed.

Lemma validate_stripped_witness :
  exists value,
    Replies.environ !! "MY_NUMBER" = Some value /\
    validate (Config "secret" "919876543210" "key") = py_strip value /\
    validate (Config "secret" "919876543210" "key") <> EmptyString /\
    (forall ch, head (utf8_chars (validate (Config "secret" "919876543210" "key"))) = Some ch ->
                py_isspace ch = false) /\
    (forall ch, last (utf8_chars (validate (Config "secret" "919876543210" "key"))) = Some ch ->
                py_isspace ch = false).
Proof. exact (validate_stripped Replies.environ _ environ_configured). Defined.

Lemma fenced_reply_unwrapped_witness :
  narrative_backend Replies.fenced_service Replies.tiny_json_loads [] "Run" =
    Replies.tiny_json_loads (py_strip (EmptyString +:+ (NL +:+ "{}" +:+ NL) +:+ NL)) /\
  narrative_backend Replies.fenced_service Replies.tiny_json_loads [] "Run" = Ok (PDict []).
Proof.
  assert (Hrun : narrative_backend Replies.fenced_service Replies.tiny_json_loads [] "Run" =
                 Replies.tiny_json_loads (py_strip (EmptyString +:+ (NL +:+ "{}" +:+ NL) +:+ NL))).
  { exact (fenced_reply_unwrapped Replies.fenced_service Replies.tiny_json_loads [] "Run"
             EmptyString (NL +:+ "{}" +:+ NL) NL eq_refl eq_refl eq_refl eq_refl eq_refl). }
  split; [exact Hrun|]. rewrite Hrun. reflexivity.
Defined.
